(** * go-logger: a shallow embedding of [logger.go] and its properties

    The package is a levelled logger.  A user template such as
    ["%{time} %{lvl} %{message}"] is compiled by [parseFormat] into a
    positional [fmt.Sprintf] template; [Info.Output] renders a record
    through it; [Worker.Log] gates on the severity and writes to the sink;
    [Logger] is the facade that builds the record.

    Conventions of the embedding:
    - a Go [string] is a byte sequence: Rocq's [string] (a list of 8-bit
      [ascii]); a literal with non-ASCII text holds its UTF-8 bytes;
    - a Go [int] index is a [Z], with [-1] for "not found", as in the
      [strings] package;
    - package-level variables live in an explicit [State] record that is
      passed to and returned from the functions that read or write them;
    - a [panic] and a call that never returns are explicit results. *)

From Stdlib Require Import ZArith List String Ascii Bool Lia.
Import ListNotations.
Local Open Scope string_scope.
Local Open Scope Z_scope.

(** ** The part of Go's [strings] package and of string slicing that the
       code uses *)

Module GoStrings.

(** [len(s)] *)
Definition len (s : string) : Z := Z.of_nat (String.length s).

Fixpoint drop (n : nat) (s : string) : string :=
  match n, s with
  | O, _ => s
  | S n', String _ s' => drop n' s'
  | S _, EmptyString => EmptyString
  end.

Fixpoint take (n : nat) (s : string) : string :=
  match n, s with
  | O, _ => EmptyString
  | S n', String c s' => String c (take n' s')
  | S _, EmptyString => EmptyString
  end.

(** [s[i:]], [s[:j]] and [s[i:j]].  Go panics when a bound is out of
    range; every slice expression of [logger.go] is taken at an index that
    a search has just returned or under a length guard, so the clamping
    done here is never observed. *)
Definition slice_from (s : string) (i : Z) : string := drop (Z.to_nat i) s.
Definition slice_to (s : string) (j : Z) : string := take (Z.to_nat j) s.
Definition slice (s : string) (i j : Z) : string :=
  take (Z.to_nat (j - i)) (drop (Z.to_nat i) s).

(** [s[i]] (guarded by a length test at each use). *)
Definition byte_at (s : string) (i : Z) : ascii :=
  match String.get (Z.to_nat i) s with
  | Some c => c
  | None => Ascii.zero
  end.

Fixpoint index_byte (c : ascii) (s : string) : option nat :=
  match s with
  | EmptyString => None
  | String a s' =>
      if Ascii.eqb a c then Some O else option_map S (index_byte c s')
  end.

(** [strings.HasPrefix(s, prefix)] *)
Fixpoint HasPrefix (s prefix : string) {struct prefix} : bool :=
  match prefix with
  | EmptyString => true
  | String a prefix' =>
      match s with
      | EmptyString => false
      | String b s' => Ascii.eqb a b && HasPrefix s' prefix'
      end
  end.

(** First position at which [sep] is a prefix of the rest of [s]. *)
Fixpoint index_of (sep s : string) : option nat :=
  if HasPrefix s sep then Some O
  else match s with
       | EmptyString => None
       | String _ s' => option_map S (index_of sep s')
       end.

(** Last such position. *)
Fixpoint last_index_of (sep s : string) : option nat :=
  match s with
  | EmptyString => if HasPrefix s sep then Some O else None
  | String _ s' =>
      match last_index_of sep s' with
      | Some i => Some (S i)
      | None => if HasPrefix s sep then Some O else None
      end
  end.

Definition to_int (o : option nat) : Z :=
  match o with
  | Some i => Z.of_nat i
  | None => -1
  end.

(** [strings.IndexRune(s, c)] for an ASCII rune [c] (a byte search). *)
Definition IndexRune (s : string) (c : ascii) : Z := to_int (index_byte c s).
(** [strings.Index(s, sep)] *)
Definition Index (s sep : string) : Z := to_int (index_of sep s).
(** [strings.LastIndex(s, sep)] *)
Definition LastIndex (s sep : string) : Z := to_int (last_index_of sep s).

(** [strings.Split(s, sep)] for a one-byte separator: the pieces between
    the separators, in order; an empty [s] gives one empty piece. *)
Fixpoint split_byte (c : ascii) (s : string) : list string :=
  match s with
  | EmptyString => [EmptyString]
  | String a s' =>
      if Ascii.eqb a c then EmptyString :: split_byte c s'
      else match split_byte c s' with
           | p :: ps => String a p :: ps
           | [] => [String a EmptyString]
           end
  end.

(** [strings.Join(elems, sep)] *)
Fixpoint Join (elems : list string) (sep : string) : string :=
  match elems with
  | [] => EmptyString
  | [e] => e
  | e :: elems' => e ++ sep ++ Join elems' sep
  end.

End GoStrings.

Import GoStrings.

(** ** Package state *)

(** A [*sync.Mutex] is the address of a mutex: two pointers are the same
    lock exactly when the addresses are equal. *)
Definition MutexPtr := nat.

(** The package-level variables [defFmt], [defTimeFmt] and [logNo], and the
    mutexes allocated so far ([&sync.Mutex{}] takes the next address) with
    the set of those currently held.  The maps [colors] and [phfs] are
    filled once by [init] and never written again: they are constants
    below. *)
Record State := mkState {
  defFmt : string;
  defTimeFmt : string;
  logNo : Z;
  mutex_next : MutexPtr;
  mutex_held : list MutexPtr
}.

(** The values the variables are declared with. *)
Definition builtinFmt : string := "#%[1]d %[2]s %[4]s:%[5]d ▶ %.3[6]s %[7]s".
Definition builtinTimeFmt : string := "2006-01-02 15:04:05".

Definition initial_state : State :=
  {| defFmt := builtinFmt; defTimeFmt := builtinTimeFmt; logNo := 0;
     mutex_next := O; mutex_held := [] |}.

(** ** The format compiler *)

(** [initFormatPlaceholders]: the table [phfs], in source order. *)
Definition phfs_table : list (string * string) :=
  [ ("%{id}",       "%[1]d");
    ("%{time}",     "%[2]s");
    ("%{module}",   "%[3]s");
    ("%{filename}", "%[4]s");
    ("%{file}",     "%[4]s");
    ("%{line}",     "%[5]d");
    ("%{level}",    "%[6]s");
    ("%{lvl}",      "%.3[6]s");
    ("%{message}",  "%[7]s");
    ("%{category}", "%[8]s") ].

Fixpoint map_lookup (k : string) (m : list (string * string)) : string :=
  match m with
  | [] => EmptyString
  | (k', v) :: m' => if String.eqb k' k then v else map_lookup k m'
  end.

(** [phfs[k]]: a Go map read of a missing key gives the zero value, the
    empty string. *)
Definition phfs (k : string) : string := map_lookup k phfs_table.

(** [ph2verb] *)
Definition ph2verb (ph : string) : string * string :=
  let n := len ph in
  if n <? 4 then (EmptyString, EmptyString)
  else if negb (Ascii.eqb (byte_at ph 0) "%")
          || negb (Ascii.eqb (byte_at ph 1) "{")
          || negb (Ascii.eqb (byte_at ph (n - 1)) "}")
  then (EmptyString, EmptyString)
  else
    let idx := IndexRune ph ":" in
    if idx =? -1 then (phfs ph, EmptyString)
    else (phfs (slice_to ph idx ++ "}"), slice ph (idx + 1) (n - 1)).

(** The variables of [parseFormat] that are live at the head of its
    [for idx != -1] loop. *)
Record pstate := mkP {
  p_format : string;
  p_idx : Z;
  p_msgfmt : string;
  p_timefmt : string
}.

(** The loop body after its first two statements, on the [msgfmt] and
    [format] they leave.  The [continue] re-enters the loop with the [idx]
    that [strings.Index(format[1:], "%{")] gave, which is an index into the
    new [format]; every other path ends with
    [idx = strings.IndexRune(format, '%')]. *)
Definition parse_body (msgfmt format timefmt : string) : pstate :=
  if 2 <? len format then
    if Ascii.eqb (byte_at format 1) "{" then
      let jdx := IndexRune format "}" in
      if negb (jdx =? -1) then
        let idx := Index (slice_from format 1) "%{" in
        if negb (idx =? -1) && (idx <? jdx) then
          mkP (slice_from format 1) idx (msgfmt ++ "%%") timefmt
        else
          let '(verb, arg) := ph2verb (slice_to format (jdx + 1)) in
          let msgfmt := msgfmt ++ verb in
          let timefmt :=
            if String.eqb verb "%[2]s" && negb (String.eqb arg EmptyString)
            then arg else timefmt in
          let format := slice_from format (jdx + 1) in
          mkP format (IndexRune format "%") msgfmt timefmt
      else
        let format := slice_from format 1 in
        mkP format (IndexRune format "%") msgfmt timefmt
    else
      let msgfmt := msgfmt ++ "%%" in
      let format := slice_from format 1 in
      mkP format (IndexRune format "%") msgfmt timefmt
  else
    mkP format (IndexRune format "%") msgfmt timefmt.

(** One run of the loop body, entered with [idx != -1]:
    [msgfmt += format[:idx]; format = format[idx:]] and the rest. *)
Definition parse_iter (s : pstate) : pstate :=
  parse_body (p_msgfmt s ++ slice_to (p_format s) (p_idx s))
             (slice_from (p_format s) (p_idx s))
             (p_timefmt s).

(** The loop, then [msgfmt += format; return].  [None]: the loop has not
    finished within [fuel] iterations. *)
Fixpoint parse_loop (fuel : nat) (s : pstate) : option (string * string) :=
  if p_idx s =? -1 then Some (p_msgfmt s ++ p_format s, p_timefmt s)
  else match fuel with
       | O => None
       | S fuel' => parse_loop fuel' (parse_iter s)
       end.

(** [parseFormat] after its length test: [timefmt = defTimeFmt], the first
    search for a percent sign and the loop.  An iteration that does not
    leave the loop state as it was shortens [format], so [len(format)]
    iterations are enough whenever the Go loop ends (lemma
    [parse_loop_fuel] below); [None] is a loop that never ends. *)
Definition parse_scan (st : State) (format : string) : option (string * string) :=
  parse_loop (String.length format)
    (mkP format (IndexRune format "%") EmptyString (defTimeFmt st)).

(** [parseFormat]; it reads the package variables [defFmt] and
    [defTimeFmt]. *)
Definition parseFormat (st : State) (format : string) : option (string * string) :=
  if len format <? 10 then Some (defFmt st, defTimeFmt st)
  else parse_scan st format.

(** ** [fmt.Sprintf]

    [Info.Output] hands the compiled template to [fmt.Sprintf] of the Go
    standard library.  The model below follows [doPrintf] of package [fmt]
    on the directives that [phfs] produces and on their neighbours: literal
    text, [%%], the plain verbs [d], [s] and [v], an explicit argument index
    [[n]], a precision for strings, the error strings [%!(NOVERB)],
    [%!v(BADINDEX)], [%!v(MISSING)], [%!v(type=value)], and the
    [%!(EXTRA ...)] report of unused arguments.  A directive outside this
    part (a flag, a width, a star, another verb) is not given a meaning here:
    the text produced from that directive on is whatever the parameter
    [other] says, so every result below holds for all behaviours of the
    formatter there. *)

Module Fmt.

(** The dynamic types of the operands that [Info.Output] passes. *)
Inductive value :=
| VUint64 (n : Z)
| VInt (n : Z)
| VString (s : string).

(** [reflect.TypeOf(arg).String()] *)
Definition type_name (v : value) : string :=
  match v with
  | VUint64 _ => "uint64"
  | VInt _ => "int"
  | VString _ => "string"
  end.

Definition digit (d : Z) : ascii := ascii_of_nat (48 + Z.to_nat d).

(** The base-10 loop of [fmtInteger], written right to left into [acc];
    a 64-bit value has at most 20 digits. *)
Fixpoint fmt_digits (fuel : nat) (u : Z) (acc : string) : string :=
  match fuel with
  | O => acc
  | S fuel' =>
      if u <? 10 then String (digit u) acc
      else fmt_digits fuel' (u / 10) (String (digit (u mod 10)) acc)
  end.

(** [fmtInteger] in base 10 without flags, width or precision. *)
Definition fmtInteger (v : Z) (isSigned : bool) : string :=
  if isSigned && (v <? 0) then String "-" (fmt_digits 20 (- v) EmptyString)
  else fmt_digits 20 v EmptyString.

Definition in_range (lo hi : nat) (c : ascii) : bool :=
  (lo <=? nat_of_ascii c)%nat && (nat_of_ascii c <=? hi)%nat.

Definition cont_byte (s : string) (i : nat) (lo hi : nat) : bool :=
  match String.get i s with
  | Some c => in_range lo hi c
  | None => false
  end.

(** The width in bytes of the first rune of a non-empty string, as
    [utf8.DecodeRuneInString] and [for range] decode it: an invalid or
    truncated encoding is one byte wide. *)
Definition rune_len (s : string) : nat :=
  match s with
  | EmptyString => O
  | String b0 _ =>
      let x := nat_of_ascii b0 in
      if (x <? 194)%nat then 1%nat                      (* ASCII, or not a leading byte *)
      else if (x <? 224)%nat then
        if cont_byte s 1 128 191 then 2%nat else 1%nat
      else if (x <? 240)%nat then
        let lo := if (x =? 224)%nat then 160%nat else 128%nat in
        let hi := if (x =? 237)%nat then 159%nat else 191%nat in
        if cont_byte s 1 lo hi && cont_byte s 2 128 191 then 3%nat else 1%nat
      else if (x <? 245)%nat then
        let lo := if (x =? 240)%nat then 144%nat else 128%nat in
        let hi := if (x =? 244)%nat then 143%nat else 191%nat in
        if cont_byte s 1 lo hi && cont_byte s 2 128 191 && cont_byte s 3 128 191
        then 4%nat else 1%nat
      else 1%nat
  end.

(** Number of bytes taken by the first [n] runes of [s]. *)
Fixpoint rune_bytes (n : nat) (s : string) : nat :=
  match n with
  | O => O
  | S n' =>
      match s with
      | EmptyString => O
      | String _ _ => let k := rune_len s in (k + rune_bytes n' (drop k s))%nat
      end
  end.

(** [truncateString]: with a precision, at most that many runes. *)
Definition truncateString (prec : option Z) (s : string) : string :=
  match prec with
  | Some n => take (rune_bytes (Z.to_nat n) s) s
  | None => s
  end.

Definition is_verb (c : ascii) (v : string) : bool :=
  String.eqb (String c EmptyString) v.

(** [printArg] without flags.  [None]: not modelled. *)
Definition printArg (wid prec : option Z) (arg : value) (verb : ascii) : option string :=
  match wid with
  | Some _ => None
  | None =>
      match arg with
      | VString s =>
          if is_verb verb "s" || is_verb verb "v" then Some (truncateString prec s)
          else if is_verb verb "d" then
            match prec with
            | None => Some ("%!d(string=" ++ s ++ ")")
            | Some _ => None
            end
          else None
      | VUint64 n | VInt n =>
          let isSigned := match arg with VInt _ => true | _ => false end in
          match prec with
          | Some _ => None
          | None =>
              if is_verb verb "d" || is_verb verb "v" then Some (fmtInteger n isSigned)
              else if is_verb verb "s" then
                Some ("%!s(" ++ type_name arg ++ "=" ++ fmtInteger n isSigned ++ ")")
              else None
          end
      end
  end.

Definition tooLarge (x : Z) : bool := (1000000 <? x) || (x <? -1000000).

Definition is_digit (c : ascii) : bool := in_range 48 57 c.

(** The loop of [parsenum] on the text from [start] on; on overflow Go
    returns [(0, false, end)], which skips the rest of the text. *)
Fixpoint parsenum_loop (s : string) (num : Z) (isnum : bool) : Z * bool * string :=
  match s with
  | EmptyString => (num, isnum, s)
  | String c s' =>
      if is_digit c then
        if tooLarge num then (0, false, EmptyString)
        else parsenum_loop s' (num * 10 + (Z.of_nat (nat_of_ascii c) - 48)) true
      else (num, isnum, s)
  end.

Definition parsenum (s : string) : Z * bool * string := parsenum_loop s 0 false.

(** [parseArgNumber(format)], called with [format[0] == '[']: the index,
    the number of bytes to skip, and whether an index was read. *)
Definition parseArgNumber (format : string) : Z * Z * bool :=
  if len format <? 3 then (0, 1, false)
  else
    match index_byte "]" (drop 1 format) with
    | None => (0, 1, false)
    | Some k =>
        let i := Z.of_nat k + 1 in
        let '(width, ok, rest) := parsenum (slice format 1 i) in
        if negb ok || negb (String.eqb rest EmptyString) then (0, i + 1, false)
        else (width - 1, i + 1, true)
    end.

(** What [doPrintf] tracks while it reads one directive: [argNum], the
    unread format, [afterIndex], [p.reordered] and [p.goodArgNum]. *)
Record scan := mkScan {
  sc_argNum : Z;
  sc_rest : string;
  sc_afterIndex : bool;
  sc_reordered : bool;
  sc_good : bool
}.

Definition starts_with (c : ascii) (s : string) : bool :=
  match s with
  | String a _ => Ascii.eqb a c
  | EmptyString => false
  end.

(** [argNumber] *)
Definition argNumber (numArgs : Z) (sc : scan) : scan :=
  if starts_with "[" (sc_rest sc) then
    let '(index, wid, ok) := parseArgNumber (sc_rest sc) in
    if ok && (0 <=? index) && (index <? numArgs)
    then mkScan index (slice_from (sc_rest sc) wid) true true (sc_good sc)
    else mkScan (sc_argNum sc) (slice_from (sc_rest sc) wid) ok true false
  else mkScan (sc_argNum sc) (sc_rest sc) false (sc_reordered sc) (sc_good sc).

(** The outcome of one directive, read after its percent sign. *)
Inductive dir_result :=
| DirOut (out : string) (argNum : Z) (reordered : bool) (rest : string)
| DirStop (out : string) (argNum : Z) (reordered : bool)
| DirOther.

Definition is_flag (c : ascii) : bool :=
  is_verb c "#" || is_verb c "0" || is_verb c "+" || is_verb c "-" || is_verb c " ".

Definition operand (a : list value) (argNum : Z) : value :=
  nth (Z.to_nat argNum) a (VString EmptyString).

(** The part of the loop body after the flags: index, width, precision,
    index, verb. *)
Definition directive_slow (a : list value) (s : string) (argNum : Z) : dir_result :=
  let numArgs := Z.of_nat (List.length a) in
  let sc := argNumber numArgs (mkScan argNum s false false true) in
  if starts_with "*" (sc_rest sc) then DirOther
  else
    let '(wid, widPresent, r) := parsenum (sc_rest sc) in
    let sc := mkScan (sc_argNum sc) r (sc_afterIndex sc) (sc_reordered sc)
                (sc_good sc && negb (sc_afterIndex sc && widPresent)) in
    let wid := if widPresent then Some wid else None in
    let after_prec : option (scan * option Z) :=
      if starts_with "." (sc_rest sc) then
        let sc := mkScan (sc_argNum sc) (drop 1 (sc_rest sc)) (sc_afterIndex sc)
                    (sc_reordered sc) (sc_good sc && negb (sc_afterIndex sc)) in
        let sc := argNumber numArgs sc in
        if starts_with "*" (sc_rest sc) then None
        else
          let '(prec, precPresent, r) := parsenum (sc_rest sc) in
          Some (mkScan (sc_argNum sc) r (sc_afterIndex sc) (sc_reordered sc) (sc_good sc),
                Some (if precPresent then prec else 0))
      else Some (sc, None) in
    match after_prec with
    | None => DirOther
    | Some (sc, prec) =>
        let sc := if sc_afterIndex sc then sc else argNumber numArgs sc in
        match sc_rest sc with
        | EmptyString => DirStop "%!(NOVERB)" (sc_argNum sc) (sc_reordered sc)
        | String verb rest =>
            let v := String verb EmptyString in
            if (128 <=? nat_of_ascii verb)%nat then DirOther
            else if is_verb verb "%" then
              DirOut "%" (sc_argNum sc) (sc_reordered sc) rest
            else if negb (sc_good sc) then
              DirOut ("%!" ++ v ++ "(BADINDEX)") (sc_argNum sc) (sc_reordered sc) rest
            else if numArgs <=? sc_argNum sc then
              DirOut ("%!" ++ v ++ "(MISSING)") (sc_argNum sc) (sc_reordered sc) rest
            else if is_verb verb "w" then DirOther
            else
              match printArg wid prec (operand a (sc_argNum sc)) verb with
              | Some out => DirOut out (sc_argNum sc + 1) (sc_reordered sc) rest
              | None => DirOther
              end
        end
    end.

(** One directive: a flag is not modelled; a lower-case verb right after
    the percent sign with an operand left takes the fast path; anything
    else goes through [directive_slow]. *)
Definition directive (a : list value) (s : string) (argNum : Z) : dir_result :=
  match s with
  | EmptyString => directive_slow a s argNum
  | String c rest =>
      if is_flag c then DirOther
      else if in_range 97 122 c && (argNum <? Z.of_nat (List.length a)) then
        match printArg None None (operand a argNum) c with
        | Some out => DirOut out (argNum + 1) false rest
        | None => DirOther
        end
      else directive_slow a s argNum
  end.

Definition extraString : string := "%!(EXTRA ".

Fixpoint extra_args (a : list value) : string :=
  match a with
  | [] => EmptyString
  | v :: a' =>
      let item :=
        type_name v ++ "=" ++
        match v with
        | VString s => s
        | VUint64 n => fmtInteger n false
        | VInt n => fmtInteger n true
        end in
      match a' with
      | [] => item
      | _ :: _ => item ++ ", " ++ extra_args a'
      end
  end.

(** The check after the loop: operands are left over and no index was
    used. *)
Definition extra (a : list value) (argNum : Z) (reordered : bool) : string :=
  if negb reordered && (argNum <? Z.of_nat (List.length a))
  then extraString ++ extra_args (skipn (Z.to_nat argNum) a) ++ ")"
  else EmptyString.

Section Sprintf.

(** The text produced from a directive that is not modelled to the end of
    the call, given [argNum], [p.reordered], the format from that percent
    sign on and the operands. *)
Variable other : Z -> bool -> string -> list value -> string.

(** The [formatLoop] of [doPrintf] and the check for extra operands.  Each
    round consumes at least the percent sign, so a fuel of one more than
    the length of the format is never used up. *)
Fixpoint doPrintf (fuel : nat) (a : list value) (format : string)
    (argNum : Z) (reordered : bool) : string :=
  match fuel with
  | O => EmptyString
  | S fuel' =>
      match index_byte "%" format with
      | None => format ++ extra a argNum reordered
      | Some i =>
          let lit := take i format in
          match directive a (drop (S i) format) argNum with
          | DirOut out argNum' re rest =>
              lit ++ out ++ doPrintf fuel' a rest argNum' (reordered || re)
          | DirStop out argNum' re =>
              lit ++ out ++ extra a argNum' (reordered || re)
          | DirOther => lit ++ other argNum reordered (drop i format) a
          end
      end
  end.

Definition Sprintf (format : string) (a : list value) : string :=
  doPrintf (S (String.length format)) a format 0 false.

End Sprintf.

End Fmt.

(** ** The surroundings of the package *)

(** A Go [error], by its message. *)
Definition error := string.

(** An [io.Writer]: a deterministic sink, whose state is the sequence of
    byte slices it has been given so far (oldest first) and whose [Write]
    may fail depending on that history and on the bytes. *)
Record Writer := mkWriter {
  written : list string;
  failing : list string -> string -> option error
}.

Definition Writer_Write (w : Writer) (p : string) : Writer * option error :=
  (mkWriter (written w ++ [p])%list (failing w), failing w (written w) p).

(** What the package takes from outside: the formatter beyond the modelled
    directives, the standard error stream, the header that a [log.Logger]
    with a non-zero flag puts before a line (date, time, file: prefix, flag
    and call depth are its inputs), the call stack ([runtime.Caller]: file
    and line at a depth), [path.Base] and the clock rendered through a
    layout ([time.Now().Format]). *)
Record Env := mkEnv {
  fmt_other : Z -> bool -> string -> list Fmt.value -> string;
  os_Stderr : Writer;
  log_header : string -> Z -> Z -> string;
  runtime_Caller : Z -> string * Z;
  path_Base : string -> string;
  time_Now_Format : string -> string
}.

(** How a call ends. *)
Inductive panic_value :=
| PanicString (msg : string)
| IndexOutOfRange (index : Z).

Inductive result (A : Type) :=
| Returns (a : A)
| Panics (p : panic_value)
| Hangs.

Arguments Returns {A} a.
Arguments Panics {A} p.
Arguments Hangs {A}.

(** [sync.Mutex]: [Lock] on a held mutex does not return in a sequential
    run; [&sync.Mutex{}] is a fresh address. *)
Definition is_held (st : State) (m : MutexPtr) : bool :=
  existsb (Nat.eqb m) (mutex_held st).

Definition Mutex_Lock (st : State) (m : MutexPtr) : State :=
  mkState (defFmt st) (defTimeFmt st) (logNo st) (mutex_next st) (m :: mutex_held st).

Definition Mutex_Unlock (st : State) (m : MutexPtr) : State :=
  mkState (defFmt st) (defTimeFmt st) (logNo st) (mutex_next st)
    (filter (fun x => negb (Nat.eqb m x)) (mutex_held st)).

Definition new_Mutex (st : State) : MutexPtr * State :=
  (mutex_next st,
   mkState (defFmt st) (defTimeFmt st) (logNo st) (S (mutex_next st)) (mutex_held st)).

(** [log.Logger]: [log.New(out, prefix, flag)] and [Output], which writes
    the header, the text and a newline when the text does not end with
    one, in a single [Write]. *)
Record log_Logger := mkLogLogger {
  lg_out : Writer;
  lg_prefix : string;
  lg_flag : Z
}.

Fixpoint ends_with_newline (s : string) : bool :=
  match s with
  | EmptyString => false
  | String c EmptyString => Ascii.eqb c (ascii_of_nat 10)
  | String _ s' => ends_with_newline s'
  end.

Definition log_Output (E : Env) (l : log_Logger) (calldepth : Z) (s : string)
  : log_Logger * option error :=
  let header :=
    if lg_flag l =? 0 then lg_prefix l
    else log_header E (lg_prefix l) (lg_flag l) calldepth in
  let line :=
    header ++ s ++
    (if ends_with_newline s then EmptyString else String (ascii_of_nat 10) EmptyString) in
  let '(out, err) := Writer_Write (lg_out l) line in
  (mkLogLogger out (lg_prefix l) (lg_flag l), err).

(** ** Severities and colours *)

Definition LogLevel := Z.

Definition CriticalLevel : LogLevel := 1.
Definition ErrorLevel : LogLevel := 2.
Definition WarningLevel : LogLevel := 3.
Definition NoticeLevel : LogLevel := 4.
Definition InfoLevel : LogLevel := 5.
Definition DebugLevel : LogLevel := 6.

Definition Black : Z := 30.
Definition Red : Z := 31.
Definition Green : Z := 32.
Definition Yellow : Z := 33.
Definition Blue : Z := 34.
Definition Magenta : Z := 35.
Definition Cyan : Z := 36.
Definition White : Z := 37.

Definition esc : ascii := ascii_of_nat 27.

(** [colorString]: [fmt.Sprintf("\033[%dm", color)] *)
Definition colorString (color : Z) : string :=
  String esc ("[" ++ Fmt.fmtInteger color true ++ "m").

(** [initColors]: the table [colors], in source order. *)
Definition colors_table : list (LogLevel * string) :=
  [ (CriticalLevel, colorString Magenta);
    (ErrorLevel,    colorString Red);
    (WarningLevel,  colorString Yellow);
    (NoticeLevel,   colorString Green);
    (DebugLevel,    colorString Cyan);
    (InfoLevel,     colorString White) ].

Fixpoint colors_lookup (k : LogLevel) (m : list (LogLevel * string)) : string :=
  match m with
  | [] => EmptyString
  | (k', v) :: m' => if k' =? k then v else colors_lookup k m'
  end.

(** [colors[level]] *)
Definition colors (level : LogLevel) : string := colors_lookup level colors_table.

(** A Go [int] is 64 bits wide here. *)
Definition wrap_int (z : Z) : Z := (z + 2 ^ 63) mod 2 ^ 64 - 2 ^ 63.

(** ** [Info] *)

Module Info.

Record t := mk {
  Id : Z;
  Time : string;
  Module_ : string;
  Level : LogLevel;
  Line : Z;
  Filename : string;
  Message : string;
  Category : string
}.

Definition logLevels : list string :=
  ["CRITICAL"; "ERROR"; "WARNING"; "NOTICE"; "INFO"; "DEBUG"].

(** [logLevelString]: the index expression [logLevels[info.Level-1]]
    panics outside the six entries. *)
Definition logLevelString (info : t) : result string :=
  let i := wrap_int (Level info - 1) in
  if (0 <=? i) && (i <? 6) then Returns (nth (Z.to_nat i) logLevels EmptyString)
  else Panics (IndexOutOfRange i).

Definition marker : string := "%!(EXTRA".

(** The eight operands of the [fmt.Sprintf] call of [Output], [lvl] being
    the value of [r.logLevelString()]. *)
Definition operands (r : t) (lvl : string) : list Fmt.value :=
  [ Fmt.VUint64 (Id r);
    Fmt.VString (Time r);
    Fmt.VString (Module_ r);
    Fmt.VString (Filename r);
    Fmt.VInt (Line r);
    Fmt.VString lvl;
    Fmt.VString (Message r);
    Fmt.VString (Category r) ].

(** [Output]: the operands are evaluated first (the sixth may panic), then
    [fmt.Sprintf], then the cut at [strings.LastIndex]. *)
Definition Output (E : Env) (r : t) (format : string) : result string :=
  match logLevelString r with
  | Panics p => Panics p
  | Hangs => Hangs
  | Returns lvl =>
      let msg := Fmt.Sprintf (fmt_other E) format (operands r lvl) in
      let i := LastIndex msg marker in
      if negb (i =? -1) then Returns (slice_to msg i) else Returns msg
  end.

End Info.

(** ** [Worker] *)

Module Worker.

Record t := mk {
  Minion : log_Logger;
  Color : Z;
  format : string;
  timeFormat : string;
  level : LogLevel;
  lock : MutexPtr
}.

(** [SetFormat]; [Hangs] when [parseFormat] does not return. *)
Definition SetFormat (w : t) (st : State) (fmt : string) : result t :=
  match parseFormat st fmt with
  | Some (msgfmt, timefmt) =>
      Returns (mk (Minion w) (Color w) msgfmt timefmt (level w) (lock w))
  | None => Hangs
  end.

Definition SetLogLevel (w : t) (lvl : LogLevel) : t :=
  mk (Minion w) (Color w) (format w) (timeFormat w) lvl (lock w).

Definition reset : string := String esc "[0m".

(** The two branches of [Log] after the lock is taken: the rendered text,
    the byte count of the buffer, and the write through [Minion]. *)
Definition write_record (E : Env) (w : t) (lvl : LogLevel) (calldepth : Z)
    (info : Info.t) : result (Z * option error) * t :=
  match Info.Output E info (format w) with
  | Panics p => (Panics p, w)
  | Hangs => (Hangs, w)
  | Returns output =>
      let buf :=
        if negb (Color w =? 0) then colors lvl ++ output ++ reset else output in
      let '(minion, err) := log_Output E (Minion w) (calldepth + 1) buf in
      (Returns (len buf, err),
       mk minion (Color w) (format w) (timeFormat w) (level w) (lock w))
  end.

(** [Log]: the severity gate, [w.lock.Lock()], the deferred [Unlock] (it
    also runs when the body panics), the write. *)
Definition Log (E : Env) (w : t) (st : State) (lvl : LogLevel) (calldepth : Z)
    (info : Info.t) : result (Z * option error) * t * State :=
  if level w <? lvl then (Returns (0, None), w, st)
  else if is_held st (lock w) then (Hangs, w, st)
  else
    let st := Mutex_Lock st (lock w) in
    let '(r, w') := write_record E w lvl calldepth info in
    (r, w', Mutex_Unlock st (lock w)).

End Worker.

(** [NewWorker]: [level] is left at its zero value. *)
Definition NewWorker (st : State) (prefix : string) (flag : Z) (color : Z)
    (out : Writer) (lock : MutexPtr) : Worker.t :=
  Worker.mk (mkLogLogger out prefix flag) color (defFmt st) (defTimeFmt st) 0 lock.

(** [SetDefaultFormat] *)
Definition SetDefaultFormat (st : State) (format : string) : result State :=
  match parseFormat st format with
  | Some (msgfmt, timefmt) =>
      Returns (mkState msgfmt timefmt (logNo st) (mutex_next st) (mutex_held st))
  | None => Hangs
  end.

(** ** [Logger] *)

(** A value passed in [args ...interface{}], by the case of the type
    switches that its dynamic type selects; [ArgOther] is any value that
    none of [string], [int], [io.Writer] and [LogLevel] matches. *)
Inductive arg :=
| ArgString (s : string)
| ArgInt (n : Z)
| ArgWriter (w : Writer)
| ArgLogLevel (l : LogLevel)
| ArgOther.

(** The local variables [module], [color], [out] and [level] of [New]
    and [Update]. *)
Record options := mkOptions {
  opt_module : string;
  opt_color : Z;
  opt_out : Writer;
  opt_level : LogLevel
}.

Definition unknown_argument : panic_value := PanicString "logger: Unknown argument".

(** The [for _, arg := range args] loop of [New]. *)
Fixpoint New_loop (args : list arg) (o : options) : result options :=
  match args with
  | [] => Returns o
  | a :: args' =>
      match a with
      | ArgString t => New_loop args' (mkOptions t (opt_color o) (opt_out o) (opt_level o))
      | ArgInt t => New_loop args' (mkOptions (opt_module o) t (opt_out o) (opt_level o))
      | ArgWriter t => New_loop args' (mkOptions (opt_module o) (opt_color o) t (opt_level o))
      | ArgLogLevel t => New_loop args' (mkOptions (opt_module o) (opt_color o) (opt_out o) t)
      | ArgOther => Panics unknown_argument
      end
  end.

(** The loop of [Update]: its switch has no [case string]. *)
Fixpoint Update_loop (args : list arg) (o : options) : result options :=
  match args with
  | [] => Returns o
  | a :: args' =>
      match a with
      | ArgInt t => Update_loop args' (mkOptions (opt_module o) t (opt_out o) (opt_level o))
      | ArgWriter t => Update_loop args' (mkOptions (opt_module o) (opt_color o) t (opt_level o))
      | ArgLogLevel t => Update_loop args' (mkOptions (opt_module o) (opt_color o) (opt_out o) t)
      | ArgString _ | ArgOther => Panics unknown_argument
      end
  end.

(** The four statements that [Stack], [StackAsError] and
    [StackAsCritical] each run on a stack text: split it at the newlines,
    keep [stackParts[0]] and [stackParts[3:]], join again.  [None]: the
    slice expression [stackParts[3:]] panics, there being fewer than three
    parts. *)
Definition newline : string := String (ascii_of_nat 10) EmptyString.

Definition strip_frame (stack : string) : option string :=
  let stackParts := split_byte (ascii_of_nat 10) stack in
  if (List.length stackParts <? 3)%nat then None
  else Some (Join (nth O stackParts EmptyString :: skipn 3 stackParts) newline).

(** [Stack], on the text that [runtime.Stack] has left in the buffer once
    the NUL bytes are trimmed. *)
Definition Stack (trace : string) : option string := strip_frame trace.

Module Logger.

Record t := mk {
  Module_ : string;
  worker : Worker.t;
  posOverride : Z;
  WriteLock : MutexPtr
}.

Definition defaults (E : Env) : options := mkOptions "DEFAULT" 1 (os_Stderr E) InfoLevel.

(** [New]; the composite literal leaves [posOverride] at its zero value.
    The second component is the [error], always [nil]. *)
Definition New (E : Env) (st : State) (args : list arg)
  : result (t * option error * State) :=
  match New_loop args (defaults E) with
  | Panics p => Panics p
  | Hangs => Hangs
  | Returns o =>
      let '(lock, st) := new_Mutex st in
      let newWorker := NewWorker st EmptyString 0 (opt_color o) (opt_out o) lock in
      let newWorker := Worker.SetLogLevel newWorker (opt_level o) in
      Returns (mk (opt_module o) newWorker 0 lock, None, st)
  end.

(** [Update] *)
Definition Update (E : Env) (l : t) (st : State) (args : list arg)
  : result (t * State) :=
  match Update_loop args (defaults E) with
  | Panics p => Panics p
  | Hangs => Hangs
  | Returns o =>
      let '(lock, st) := new_Mutex st in
      let newWorker := NewWorker st EmptyString 0 (opt_color o) (opt_out o) lock in
      let newWorker := Worker.SetLogLevel newWorker (opt_level o) in
      Returns (mk (Module_ l) newWorker (posOverride l) (WriteLock l), st)
  end.

Definition SetFormat (l : t) (st : State) (fmt : string) : result t :=
  match Worker.SetFormat (worker l) st fmt with
  | Returns w => Returns (mk (Module_ l) w (posOverride l) (WriteLock l))
  | Panics p => Panics p
  | Hangs => Hangs
  end.

Definition SetLogLevel (l : t) (lvl : LogLevel) : t :=
  mk (Module_ l) (Worker.SetLogLevel (worker l) lvl) (posOverride l) (WriteLock l).

Definition GetPosOverride (l : t) : Z := posOverride l.

Definition SetPosOverride (l : t) (pos : Z) : t :=
  mk (Module_ l) (worker l) pos (WriteLock l).

(** The first statement of [log_internal]: the depth given to
    [runtime.Caller], and the logger with the override consumed. *)
Definition resolve_pos (l : t) (pos : Z) : Z * t :=
  if negb (posOverride l =? -1)
  then (posOverride l, mk (Module_ l) (worker l) (-1) (WriteLock l))
  else (pos, l).

(** [log_internal] up to the record: [atomic.AddUint64(&logNo, 1)] gives
    the new value of the 64-bit counter. *)
Definition make_info (E : Env) (l : t) (st : State) (lvl : LogLevel)
    (category message : string) (pos : Z) : Info.t * t * State :=
  let '(pos, l) := resolve_pos l pos in
  let '(filename, line) := runtime_Caller E pos in
  let filename := path_Base E filename in
  let id := (logNo st + 1) mod 2 ^ 64 in
  let st := mkState (defFmt st) (defTimeFmt st) id (mutex_next st) (mutex_held st) in
  (Info.mk id (time_Now_Format E (Worker.timeFormat (worker l))) (Module_ l) lvl
     line filename message category,
   l, st).

(** [log_internal] *)
Definition log_internal (E : Env) (l : t) (st : State) (lvl : LogLevel)
    (category message : string) (pos : Z)
  : result (Z * option error) * t * State :=
  let '(info, l, st) := make_info E l st lvl category message pos in
  let '(r, w, st) := Worker.Log E (worker l) st lvl 2 info in
  (r, mk (Module_ l) w (posOverride l) (WriteLock l), st).

(** [Log] drops the results of [log_internal]. *)
Definition Log (E : Env) (l : t) (st : State) (lvl : LogLevel)
    (category message : string) : result unit * t * State :=
  let '(r, l, st) := log_internal E l st lvl category message 2 in
  (match r with
   | Returns _ => Returns tt
   | Panics p => Panics p
   | Hangs => Hangs
   end, l, st).

(** [Write]: the count is [len(bytes)], whatever the worker wrote. *)
Definition Write (E : Env) (l : t) (st : State) (bytes : string)
  : result (Z * option error) * t * State :=
  let '(r, l, st) := log_internal E l st InfoLevel "default_logger" bytes 4 in
  (match r with
   | Returns (_, err) => Returns (len bytes, err)
   | Panics p => Panics p
   | Hangs => Hangs
   end, l, st).

(** [Panic]: the record first, then [panic(message)]. *)
Definition Panic (E : Env) (l : t) (st : State) (category message : string)
  : result unit * t * State :=
  let '(r, l, st) := log_internal E l st CriticalLevel category message 2 in
  (match r with
   | Returns _ => Panics (PanicString message)
   | Panics p => Panics p
   | Hangs => Hangs
   end, l, st).

(** [StackAsError] and [StackAsCritical], which differ in the level: the
    default message, the newline, [Stack()], one more [strip_frame], the
    record.  [None]: a slice expression panicked. *)
Definition stack_as (E : Env) (lvl : LogLevel) (l : t) (st : State)
    (category message trace : string)
  : option (result (Z * option error) * t * State) :=
  let message := if String.eqb message EmptyString then "Stack info" else message in
  let message := message ++ newline in
  match Stack trace with
  | None => None
  | Some stack =>
      match strip_frame stack with
      | None => None
      | Some stack => Some (log_internal E l st lvl category (message ++ stack) 2)
      end
  end.

Definition StackAsError (E : Env) := stack_as E ErrorLevel.
Definition StackAsCritical (E : Env) := stack_as E CriticalLevel.

End Logger.

(** ** A concrete environment, for running the definitions *)

Definition plain_writer : Writer := mkWriter [] (fun _ _ => None).

Definition demo_env : Env :=
  mkEnv (fun _ _ _ _ => EmptyString) plain_writer (fun prefix _ _ => prefix)
        (fun depth => if depth =? 0 then ("/go/src/logger/logger.go", 343)
                      else ("/home/app/main.go", 42))
        (fun p => slice_from p (LastIndex p "/" + 1))
        (fun layout => if String.eqb layout builtinTimeFmt
                       then "2024-01-01 00:00:00" else "2024").

(** ** Notions used to state the properties *)

(** [sep] occurs in [s] at byte offset [i]. *)
Definition occurs_at (sep s : string) (i : nat) : Prop :=
  (i <= String.length s)%nat /\ HasPrefix (drop i s) sep = true.

(** [strings.Contains(s, sep)] *)
Definition contains (s sep : string) : bool := negb (Index s sep =? -1).

(** The first value among [args] that [sel] accepts, and the last one. *)
Fixpoint first_of {A : Type} (sel : arg -> option A) (args : list arg) : option A :=
  match args with
  | [] => None
  | a :: args' =>
      match sel a with
      | Some x => Some x
      | None => first_of sel args'
      end
  end.

Definition last_of {A : Type} (sel : arg -> option A) (args : list arg) : option A :=
  first_of sel (rev args).

Definition or_default {A : Type} (o : option A) (d : A) : A :=
  match o with
  | Some x => x
  | None => d
  end.

Definition as_string (a : arg) : option string :=
  match a with ArgString s => Some s | _ => None end.
Definition as_int (a : arg) : option Z :=
  match a with ArgInt n => Some n | _ => None end.
Definition as_writer (a : arg) : option Writer :=
  match a with ArgWriter w => Some w | _ => None end.
Definition as_level (a : arg) : option LogLevel :=
  match a with ArgLogLevel l => Some l | _ => None end.
Definition is_other (a : arg) : bool :=
  match a with ArgOther => true | _ => false end.

(** At the head of the loop of [parseFormat], [idx] is [-1] or the offset
    of a percent sign in [format]. *)
Definition at_percent (s : pstate) : Prop :=
  p_idx s = -1 \/
  (0 <= p_idx s /\ exists r, slice_from (p_format s) (p_idx s) = String "%" r).

(** The bytes of [format] from [idx] on: what the loop still has to read. *)
Definition remaining (s : pstate) : nat :=
  if p_idx s =? -1 then O
  else (String.length (p_format s) - Z.to_nat (p_idx s))%nat.

(** The same loop state with [P] in front of [msgfmt], and the same for a
    result. *)
Definition with_prefix (P : string) (s : pstate) : pstate :=
  mkP (p_format s) (p_idx s) (P ++ p_msgfmt s) (p_timefmt s).

Definition result_with_prefix (P : string) (r : option (string * string))
  : option (string * string) :=
  match r with
  | Some (m, t) => Some (P ++ m, t)
  | None => None
  end.

(** Two loop states that differ at most in [timefmt]. *)
Definition same_but_time (s s' : pstate) : Prop :=
  p_format s = p_format s' /\ p_idx s = p_idx s' /\ p_msgfmt s = p_msgfmt s'.

(** A text that cannot complete an occurrence of the marker begun before
    it: it is empty or starts with none of the marker's later bytes. *)
Definition seam_safe (b : string) : bool :=
  match b with
  | EmptyString => true
  | String c _ =>
      negb (existsb (Ascii.eqb c) ["!"; "("; "E"; "X"; "T"; "R"; "A"]%char)
  end.

(** What [fmt.Sprintf] writes after the marker when the template used none
    of the operands of [Info.Output]. *)
Definition extra_report (r : Info.t) (lvl : string) : string :=
  " uint64=" ++ Fmt.fmtInteger (Info.Id r) false ++
  ", string=" ++ Info.Time r ++
  ", string=" ++ Info.Module_ r ++
  ", string=" ++ Info.Filename r ++
  ", int=" ++ Fmt.fmtInteger (Info.Line r) true ++
  ", string=" ++ lvl ++
  ", string=" ++ Info.Message r ++
  ", string=" ++ Info.Category r ++ ")".

(** The lock a logger exposes is the one its worker takes. *)
Definition shares_lock (l : Logger.t) : Prop :=
  Logger.WriteLock l = Worker.lock (Logger.worker l).

(** The sink of [w'] holds one more write than that of [w]. *)
Definition wrote (w w' : Worker.t) : Prop :=
  exists line,
    written (lg_out (Worker.Minion w')) =
    (written (lg_out (Worker.Minion w)) ++ [line])%list.

(** The first three bytes of the six names. *)
Definition level_abbreviations : list string :=
  ["CRI"; "ERR"; "WAR"; "NOT"; "INF"; "DEB"].

(** The values of a 64-bit [int]. *)
Definition int_range (z : Z) : Prop := - 2 ^ 63 <= z < 2 ^ 63.

(** Records and a worker to run the definitions on. *)
Definition demo_info : Info.t :=
  Info.mk 1 "2024-01-01 00:00:00" "core" WarningLevel 42 "main.go" "hello" "net".

Definition marked_info : Info.t :=
  Info.mk 1 "2024-01-01 00:00:00" "core" WarningLevel 42 "main.go"
          "a%!(EXTRAb%!(EXTRAc" "net".

Definition demo_worker : Worker.t :=
  Worker.mk (mkLogLogger plain_writer EmptyString 0) 0 builtinFmt builtinTimeFmt
            InfoLevel O.

(** A severity is one of the six constants. *)
Definition valid_level (l : LogLevel) : Prop := CriticalLevel <= l <= DebugLevel.

(** *** Templates by their parts

    A template read as a sequence of literal texts, placeholders
    [%{body}] and single percent signs. *)
Inductive item :=
| Lit (s : string)
| Ph (body : string)
| Pct.

Definition placeholder (body : string) : string := "%{" ++ body ++ "}".

Definition item_text (i : item) : string :=
  match i with
  | Lit s => s
  | Ph body => placeholder body
  | Pct => "%"
  end.

Fixpoint template (items : list item) : string :=
  match items with
  | [] => EmptyString
  | i :: items' => item_text i ++ template items'
  end.

(** The parts are what they look like: a literal has no percent sign, the
    body of a placeholder has neither a percent sign nor a closing brace,
    and a single percent sign is followed by at least two bytes, the first
    of which is not an opening brace. *)
Fixpoint well_formed (items : list item) : Prop :=
  match items with
  | [] => True
  | Lit s :: items' => index_byte "%" s = None /\ well_formed items'
  | Ph body :: items' =>
      index_byte "%" body = None /\ index_byte "}" body = None /\
      well_formed items'
  | Pct :: items' =>
      (2 <= String.length (template items'))%nat /\
      Fmt.starts_with "{" (template items') = false /\
      well_formed items'
  end.

(** What each part should become in the positional template, and the time
    layout after the parts, read from left to right. *)
Definition item_verb (i : item) : string :=
  match i with
  | Lit s => s
  | Ph body => fst (ph2verb (placeholder body))
  | Pct => "%%"
  end.

Fixpoint compiled (items : list item) : string :=
  match items with
  | [] => EmptyString
  | i :: items' => item_verb i ++ compiled items'
  end.

Fixpoint time_layout (items : list item) (timefmt : string) : string :=
  match items with
  | [] => timefmt
  | Ph body :: items' =>
      let '(verb, arg) := ph2verb (placeholder body) in
      time_layout items'
        (if String.eqb verb "%[2]s" && negb (String.eqb arg EmptyString)
         then arg else timefmt)
  | _ :: items' => time_layout items' timefmt
  end.

(** The field of a record that a verb of the table stands for; [lvl] is
    the name of the severity. *)
Definition verb_field (r : Info.t) (lvl : string) (verb : string) : string :=
  if String.eqb verb "%[1]d" then Fmt.fmtInteger (Info.Id r) false
  else if String.eqb verb "%[2]s" then Info.Time r
  else if String.eqb verb "%[3]s" then Info.Module_ r
  else if String.eqb verb "%[4]s" then Info.Filename r
  else if String.eqb verb "%[5]d" then Fmt.fmtInteger (Info.Line r) true
  else if String.eqb verb "%[6]s" then lvl
  else if String.eqb verb "%.3[6]s" then Fmt.truncateString (Some 3) lvl
  else if String.eqb verb "%[7]s" then Info.Message r
  else if String.eqb verb "%[8]s" then Info.Category r
  else EmptyString.

(** The operand that follows the one a verb of the table names. *)
Definition verb_next (verb : string) : Z :=
  if String.eqb verb "%[1]d" then 1
  else if String.eqb verb "%[2]s" then 2
  else if String.eqb verb "%[3]s" then 3
  else if String.eqb verb "%[4]s" then 4
  else if String.eqb verb "%[5]d" then 5
  else if String.eqb verb "%[6]s" then 6
  else if String.eqb verb "%.3[6]s" then 6
  else if String.eqb verb "%[7]s" then 7
  else 8.

(** The line a template should render to: literals as they are, one
    percent sign for a single one, the field for a placeholder of the
    table and nothing for any other placeholder. *)
Definition item_render (r : Info.t) (lvl : string) (i : item) : string :=
  match i with
  | Lit s => s
  | Ph body => verb_field r lvl (fst (ph2verb (placeholder body)))
  | Pct => "%"
  end.

Fixpoint rendered (r : Info.t) (lvl : string) (items : list item) : string :=
  match items with
  | [] => EmptyString
  | i :: items' => item_render r lvl i ++ rendered r lvl items'
  end.

(** Some placeholder of the template is in the table. *)
Fixpoint uses_field (items : list item) : bool :=
  match items with
  | [] => false
  | Ph body :: items' =>
      negb (String.eqb (fst (ph2verb (placeholder body))) EmptyString)
      || uses_field items'
  | _ :: items' => uses_field items'
  end.

(** [argNum] and [p.reordered] of [doPrintf] after the verbs of the
    parts. *)
Fixpoint next_operand (items : list item) (argNum : Z) : Z :=
  match items with
  | [] => argNum
  | Ph body :: items' =>
      let verb := fst (ph2verb (placeholder body)) in
      next_operand items' (if String.eqb verb EmptyString then argNum else verb_next verb)
  | _ :: items' => next_operand items' argNum
  end.

(** The nine verbs of the table. *)
Definition table_verbs : list string :=
  ["%[1]d"; "%[2]s"; "%[3]s"; "%[4]s"; "%[5]d"; "%[6]s"; "%.3[6]s"; "%[7]s"; "%[8]s"].

(** [F] is what is left of [f] after some bytes. *)
Definition suffix_of (f F : string) : Prop := exists k, F = drop k f.

(** The last byte of [F] is a percent sign. *)
Definition ends_with_percent (F : string) : Prop := exists p, F = p ++ "%".

(** The options that [Update] accepts: any string is refused. *)
Definition is_refused (a : arg) : bool :=
  match a with ArgString _ | ArgOther => true | _ => false end.

(** A logger and a state to run the entry points on. *)
Definition demo_logger : Logger.t := Logger.mk "app" demo_worker (-1) O.

Definition demo_trace : string :=
  Join ["goroutine 1 [running]:"; "logger.Stack()"; "  logger.go:516";
        "logger.(*Logger).StackAsError()"; "  logger.go:491";
        "main.main()"; "  main.go:10"] newline.

(** The scan of [parseFormat] started from the time layout [timefmt]
    instead of the default one: [parse_scan st format] is
    [parse_scan_with (defTimeFmt st) format]. *)
Definition parse_scan_with (timefmt format : string) : option (string * string) :=
  parse_loop (String.length format)
    (mkP format (IndexRune format "%") EmptyString timefmt).

(** The parts of the beginning of a template, [next] being the text that
    follows them: a literal has no percent sign, the body of a placeholder
    has no closing brace and no ["%{"] (it may have percent signs), and a
    single percent sign is followed, in the template, by at least two bytes
    of which the first is not an opening brace. *)
Fixpoint well_formed_before (next : string) (items : list item) : Prop :=
  match items with
  | [] => True
  | Lit s :: items' => index_byte "%" s = None /\ well_formed_before next items'
  | Ph body :: items' =>
      index_of "%{" body = None /\ index_byte "}" body = None /\
      well_formed_before next items'
  | Pct :: items' =>
      (2 <= String.length (template items' ++ next))%nat /\
      Fmt.starts_with "{" (template items' ++ next) = false /\
      well_formed_before next items'
  end.

(** * Properties *)

(** ** Strings: slicing and searching *)

Section StringFacts.

Lemma append_empty_r (s : string) : s ++ EmptyString = s.
Proof. induction s; simpl; congruence. Qed.

Lemma append_assoc (a b c : string) : (a ++ b) ++ c = a ++ b ++ c.
Proof. induction a; simpl; congruence. Qed.

Lemma length_append (a b : string) :
  String.length (a ++ b) = (String.length a + String.length b)%nat.
Proof. induction a; simpl; congruence. Qed.

Lemma take_drop (n : nat) (s : string) : take n s ++ drop n s = s.
Proof.
  revert s; induction n as [|n IH]; intros [|c s]; simpl; try reflexivity.
  now rewrite IH.
Qed.

Lemma length_drop (n : nat) (s : string) :
  String.length (drop n s) = (String.length s - n)%nat.
Proof.
  revert s; induction n as [|n IH]; intros [|c s]; simpl; auto with arith.
Qed.

Lemma take_app (a b : string) : take (String.length a) (a ++ b) = a.
Proof. induction a; simpl; [now destruct b | congruence]. Qed.

Lemma drop_app (a b : string) : drop (String.length a) (a ++ b) = b.
Proof. induction a; simpl; auto. Qed.

(** [index_byte] finds the first occurrence of the byte. *)
Lemma index_byte_Some (c : ascii) (s : string) (i : nat) :
  index_byte c s = Some i ->
  exists r, drop i s = String c r /\ index_byte c (take i s) = None.
Proof.
  revert i; induction s as [|a s IH]; simpl; intros i H; [discriminate|].
  destruct (Ascii.eqb a c) eqn:Hac.
  - apply Ascii.eqb_eq in Hac; subst a. injection H as <-. simpl. now exists s.
  - destruct (index_byte c s) as [k|]; [|discriminate].
    injection H as <-. destruct (IH k eq_refl) as (r & Hr & Hn).
    exists r. simpl. now rewrite Hac, Hn.
Qed.

Lemma index_byte_lt (c : ascii) (s : string) (i : nat) :
  index_byte c s = Some i -> (i < String.length s)%nat.
Proof.
  intros H. destruct (index_byte_Some _ _ _ H) as (r & Hr & _).
  pose proof (length_drop i s) as L. rewrite Hr in L. simpl in L. lia.
Qed.

Lemma index_byte_app_None (c : ascii) (a b : string) :
  index_byte c a = None ->
  index_byte c (a ++ b) = option_map (Nat.add (String.length a)) (index_byte c b).
Proof.
  induction a as [|x a IH]; simpl; intros H.
  - now destruct (index_byte c b).
  - destruct (Ascii.eqb x c); [discriminate|].
    destruct (index_byte c a); [discriminate|].
    rewrite IH by reflexivity. now destruct (index_byte c b).
Qed.

(** What [HasPrefix] says about a concatenation: the pattern lies in the
    first part, or it straddles the seam. *)
Lemma HasPrefix_app_cases (m a b : string) :
  HasPrefix (a ++ b) m = true ->
  HasPrefix a m = true \/
  ((String.length a < String.length m)%nat /\
   HasPrefix b (drop (String.length a) m) = true).
Proof.
  revert a; induction m as [|x m IH]; intros a H; [now left|].
  destruct a as [|c a]; [right; split; [simpl; lia | exact H]|].
  simpl in H |- *. destruct (Ascii.eqb x c); [|discriminate].
  destruct (IH _ H) as [Hl|[Hk Hp]]; [now left | right; split; [lia | exact Hp]].
Qed.

Lemma HasPrefix_app (m b : string) : HasPrefix (m ++ b) m = true.
Proof.
  induction m as [|x m IH]; [reflexivity|].
  simpl. now rewrite Ascii.eqb_refl.
Qed.

(** [index_of] and [last_index_of] against [occurs_at]. *)
Lemma occurs_at_cons (sep : string) (c : ascii) (s : string) (i : nat) :
  occurs_at sep (String c s) (S i) <-> occurs_at sep s i.
Proof. unfold occurs_at; simpl. split; intros [H1 H2]; split; auto; lia. Qed.

Lemma index_of_None (sep s : string) :
  index_of sep s = None <-> forall i, ~ occurs_at sep s i.
Proof.
  induction s as [|c s IH].
  - simpl. destruct (HasPrefix EmptyString sep) eqn:Hp; split; intros H.
    + discriminate.
    + exfalso. apply (H O). split; [simpl; lia | exact Hp].
    + intros i [Hi Hq]. simpl in Hi. assert (i = O) by lia. subst. simpl in Hq. congruence.
    + reflexivity.
  - cbn [index_of]. destruct (HasPrefix (String c s) sep) eqn:Hp; split; intros H.
    + discriminate.
    + exfalso. apply (H O). split; [simpl; lia | exact Hp].
    + destruct (index_of sep s) eqn:Hi; [discriminate|].
      intros [|i] Ho.
      * destruct Ho as [_ Ho]. simpl in Ho. congruence.
      * apply occurs_at_cons in Ho. now apply (proj1 IH eq_refl i).
    + destruct (index_of sep s) eqn:Hi; [|reflexivity].
      assert (Some n = None :> option nat); [|discriminate].
      apply IH. intros i Ho. apply (H (S i)). now apply occurs_at_cons.
Qed.

Lemma last_index_of_None (sep s : string) :
  last_index_of sep s = None <-> index_of sep s = None.
Proof.
  induction s as [|c s IH].
  - simpl. now destruct (HasPrefix EmptyString sep).
  - cbn [last_index_of index_of].
    destruct (last_index_of sep s), (index_of sep s), (HasPrefix (String c s) sep);
      simpl; split; intros H; try discriminate; try reflexivity;
      exfalso; destruct IH as [IH1 IH2];
      (specialize (IH1 eq_refl) || specialize (IH2 eq_refl)); discriminate.
Qed.

Lemma last_index_of_Some (sep s : string) (i : nat) :
  last_index_of sep s = Some i ->
  occurs_at sep s i /\ forall j, occurs_at sep s j -> (j <= i)%nat.
Proof.
  revert i; induction s as [|c s IH]; intros i.
  - simpl. destruct (HasPrefix EmptyString sep) eqn:Hp; [|discriminate].
    intros [= <-]. split; [split; [simpl; lia | exact Hp]|].
    intros j [Hj _]. simpl in Hj. lia.
  - cbn [last_index_of]. destruct (last_index_of sep s) as [k|] eqn:Hl.
    + intros [= <-]. destruct (IH k eq_refl) as [Ho Hmax]. split.
      * now apply occurs_at_cons.
      * intros [|j] Hj; [lia|]. apply occurs_at_cons in Hj. apply Hmax in Hj. lia.
    + destruct (HasPrefix (String c s) sep) eqn:Hp; [|discriminate].
      intros [= <-]. split; [split; [simpl; lia | exact Hp]|].
      intros [|j] Hj; [lia|]. apply occurs_at_cons in Hj.
      exfalso. apply last_index_of_None in Hl.
      now apply (proj1 (index_of_None sep s) Hl j).
Qed.

End StringFacts.

(** ** The loop of [parseFormat] *)

Section CompilerFacts.

Lemma index_of_Some (sep s : string) (i : nat) :
  index_of sep s = Some i -> HasPrefix (drop i s) sep = true.
Proof.
  revert i; induction s as [|c s IH]; intros i.
  - simpl. destruct (HasPrefix EmptyString sep) eqn:Hp; [|discriminate].
    now intros [= <-].
  - cbn [index_of]. destruct (HasPrefix (String c s) sep) eqn:Hp.
    + now intros [= <-].
    + destruct (index_of sep s) as [k|]; [|discriminate].
      intros [= <-]. simpl. now apply IH.
Qed.

Lemma IndexRune_at_percent (F m t : string) :
  at_percent (mkP F (IndexRune F "%") m t).
Proof.
  unfold at_percent, IndexRune, to_int; simpl.
  destruct (index_byte "%" F) as [k|] eqn:Hk; [right | now left].
  split; [lia|]. destruct (index_byte_Some _ _ _ Hk) as (r & Hr & _).
  exists r. unfold slice_from. now rewrite Nat2Z.id.
Qed.

Lemma Index_at_percent (F m t : string) :
  at_percent (mkP F (Index F "%{") m t).
Proof.
  unfold at_percent, Index, to_int; simpl.
  destruct (index_of "%{" F) as [k|] eqn:Hk; [right | now left].
  split; [lia|]. apply index_of_Some in Hk.
  unfold slice_from. rewrite Nat2Z.id.
  destruct (drop k F) as [|c r]; cbn [HasPrefix] in Hk; [discriminate Hk|].
  destruct (Ascii.eqb "%" c) eqn:Hc; [|discriminate Hk].
  apply Ascii.eqb_eq in Hc. subst c. now exists r.
Qed.

Lemma remaining_le (F : string) (i : Z) (m t : string) :
  (remaining (mkP F i m t) <= String.length F)%nat.
Proof. unfold remaining; simpl. destruct (i =? -1); lia. Qed.

Lemma length_slice_from (F : string) (i : Z) :
  String.length (slice_from F i) = (String.length F - Z.to_nat i)%nat.
Proof. apply length_drop. Qed.

(** The body, entered at a percent sign: it stops again at one; it
    shortens [format] when more than two bytes are left, and changes
    nothing otherwise. *)
Lemma parse_body_spec (m F t : string) (r : string) :
  F = String "%" r ->
  at_percent (parse_body m F t) /\
  (2 < len F -> (remaining (parse_body m F t) < String.length F)%nat) /\
  (len F <= 2 -> parse_body m F t = mkP F 0 m t).
Proof.
  intros HF. unfold parse_body.
  assert (HL : (0 < String.length F)%nat) by (subst F; simpl; lia).
  destruct (2 <? len F) eqn:H2.
  - apply Z.ltb_lt in H2.
    assert (Hshort : forall k i m' t', 0 < k ->
              (remaining (mkP (slice_from F k) i m' t') < String.length F)%nat).
    { intros k i m' t' Hk.
      pose proof (remaining_le (slice_from F k) i m' t') as Hr.
      rewrite length_slice_from in Hr. lia. }
    assert (Hj : 0 <= IndexRune F "}" \/ IndexRune F "}" = -1).
    { unfold IndexRune, to_int. destruct (index_byte "}" F); lia. }
    split; [|split; [intros _ | lia]].
    + destruct (Ascii.eqb (byte_at F 1) "{").
      * destruct (negb (IndexRune F "}" =? -1)).
        -- destruct (negb (Index (slice_from F 1) "%{" =? -1)
                     && (Index (slice_from F 1) "%{" <? IndexRune F "}")).
           ++ apply Index_at_percent.
           ++ destruct (ph2verb (slice_to F (IndexRune F "}" + 1))).
              apply IndexRune_at_percent.
        -- apply IndexRune_at_percent.
      * apply IndexRune_at_percent.
    + destruct (Ascii.eqb (byte_at F 1) "{").
      * destruct (negb (IndexRune F "}" =? -1)) eqn:Hn.
        -- destruct (negb (Index (slice_from F 1) "%{" =? -1)
                     && (Index (slice_from F 1) "%{" <? IndexRune F "}")).
           ++ apply Hshort; lia.
           ++ destruct (ph2verb (slice_to F (IndexRune F "}" + 1))).
              apply Hshort. apply negb_true_iff, Z.eqb_neq in Hn. lia.
        -- apply Hshort; lia.
      * apply Hshort; lia.
  - apply Z.ltb_ge in H2.
    assert (H0 : IndexRune F "%" = 0) by (subst F; reflexivity).
    rewrite H0. split; [|split; [lia | reflexivity]].
    right. cbn [p_idx p_format]. split; [lia|]. exists r. subst F. reflexivity.
Qed.

Lemma remaining_at_percent (s : pstate) (r : string) :
  0 <= p_idx s ->
  slice_from (p_format s) (p_idx s) = String "%" r ->
  remaining s = String.length (slice_from (p_format s) (p_idx s)).
Proof.
  intros H0 _. unfold remaining. rewrite length_slice_from.
  destruct (p_idx s =? -1) eqn:He; [apply Z.eqb_eq in He; lia | reflexivity].
Qed.

(** A loop state with at most two bytes left from a percent sign on is
    reproduced by the body: the Go loop does not end. *)
Lemma parse_loop_stuck (n : nat) (F r m t : string) :
  F = String "%" r -> len F <= 2 -> parse_loop n (mkP F 0 m t) = None.
Proof.
  intros HF HL. revert m. induction n as [|n IH]; intros m; [reflexivity|].
  cbn [parse_loop p_idx]. change (0 =? -1) with false. cbv iota.
  unfold parse_iter. cbn [p_msgfmt p_format p_idx p_timefmt].
  change (slice_from F 0) with F. change (slice_to F 0) with (take O F).
  destruct (parse_body_spec (m ++ take O F) F t r HF) as (_ & _ & Hs).
  rewrite (Hs HL). apply IH.
Qed.

(** Fuel beyond the number of bytes left to read changes nothing. *)
Lemma parse_loop_fuel (n : nat) :
  forall (m : nat) (s : pstate),
    at_percent s -> (remaining s <= n)%nat -> (remaining s <= m)%nat ->
    parse_loop n s = parse_loop m s.
Proof.
  induction n as [|n IH]; intros m s Hs Hn Hm.
  - destruct (p_idx s =? -1) eqn:He.
    + destruct m; simpl; now rewrite He.
    + exfalso. destruct Hs as [Hs|(H0 & r & Hr)]; [apply Z.eqb_neq in He; lia|].
      rewrite (remaining_at_percent s r H0 Hr), Hr in Hn. simpl in Hn. lia.
  - destruct (p_idx s =? -1) eqn:He.
    + destruct m; simpl; now rewrite He.
    + destruct Hs as [Hs|(H0 & r & Hr)]; [apply Z.eqb_neq in He; lia|].
      pose proof (remaining_at_percent s r H0 Hr) as Hrem.
      destruct m as [|m]; [rewrite Hrem, Hr in Hm; simpl in Hm; lia|].
      cbn [parse_loop]. rewrite He. unfold parse_iter.
      destruct (parse_body_spec (p_msgfmt s ++ slice_to (p_format s) (p_idx s))
                  (slice_from (p_format s) (p_idx s)) (p_timefmt s) r Hr)
        as (Hg & Hp & Hst).
      destruct (Z.le_gt_cases (len (slice_from (p_format s) (p_idx s))) 2) as [Hle|Hgt].
      * rewrite (Hst Hle).
        now rewrite !(parse_loop_stuck _ _ r _ _ Hr Hle).
      * apply IH; [exact Hg | |]; specialize (Hp ltac:(lia)); lia.
Qed.

Lemma parse_loop_mono (n : nat) :
  forall s r, parse_loop n s = Some r -> parse_loop (S n) s = Some r.
Proof.
  induction n as [|n IH]; intros s r H.
  - cbn [parse_loop] in H |- *. destruct (p_idx s =? -1); [exact H | discriminate H].
  - cbn [parse_loop] in H. change (parse_loop (S (S n)) s)
      with (if p_idx s =? -1 then Some (p_msgfmt s ++ p_format s, p_timefmt s)
            else parse_loop (S n) (parse_iter s)).
    destruct (p_idx s =? -1); [exact H | now apply IH].
Qed.

(** So [None] from [parse_scan] is a loop that no number of rounds ends,
    and a result of [parse_scan] is the result of the loop with any larger
    number of rounds. *)
Lemma parse_scan_None (st : State) (format : string) :
  parse_scan st format = None ->
  forall n, parse_loop n (mkP format (IndexRune format "%") EmptyString (defTimeFmt st))
            = None.
Proof.
  unfold parse_scan. intros H n.
  set (s0 := mkP format (IndexRune format "%") EmptyString (defTimeFmt st)) in *.
  destruct (Nat.le_gt_cases (String.length format) n) as [Hn|Hn].
  - rewrite <- H. apply parse_loop_fuel.
    + apply IndexRune_at_percent.
    + pose proof (remaining_le format (IndexRune format "%") EmptyString (defTimeFmt st)).
      unfold s0. lia.
    + apply remaining_le.
  - destruct (parse_loop n s0) as [r|] eqn:Hr; [|reflexivity].
    exfalso.
    assert (Hup : forall k, parse_loop (k + n) s0 = Some r).
    { induction k as [|k IHk]; [exact Hr|]. now apply parse_loop_mono. }
    specialize (Hup (String.length format - n)%nat).
    replace (String.length format - n + n)%nat with (String.length format) in Hup by lia.
    congruence.
Qed.

(** Text already in [msgfmt] stays in front of the result. *)
Lemma parse_body_with_prefix (P m F t : string) :
  parse_body (P ++ m) F t = with_prefix P (parse_body m F t).
Proof.
  unfold parse_body, with_prefix.
  destruct (2 <? len F); [|now simpl].
  destruct (Ascii.eqb (byte_at F 1) "{").
  - destruct (negb (IndexRune F "}" =? -1)); [|now simpl].
    destruct (negb (Index (slice_from F 1) "%{" =? -1)
              && (Index (slice_from F 1) "%{" <? IndexRune F "}")).
    + simpl. now rewrite append_assoc.
    + destruct (ph2verb (slice_to F (IndexRune F "}" + 1))). simpl.
      now rewrite append_assoc.
  - simpl. now rewrite append_assoc.
Qed.

Lemma parse_loop_with_prefix (P : string) (n : nat) :
  forall s, parse_loop n (with_prefix P s) = result_with_prefix P (parse_loop n s).
Proof.
  induction n as [|n IH]; intros s; cbn [parse_loop with_prefix p_idx];
    destruct (p_idx s =? -1); simpl; try reflexivity; try now rewrite append_assoc.
  unfold parse_iter. cbn [with_prefix p_msgfmt p_format p_idx p_timefmt].
  rewrite append_assoc, parse_body_with_prefix. apply IH.
Qed.

(** The time layout a loop starts with does not reach the positional
    template. *)
Lemma parse_body_same_but_time (m F t t' : string) :
  same_but_time (parse_body m F t) (parse_body m F t').
Proof.
  unfold parse_body, same_but_time.
  destruct (2 <? len F); [|now simpl].
  destruct (Ascii.eqb (byte_at F 1) "{"); [|now simpl].
  destruct (negb (IndexRune F "}" =? -1)); [|now simpl].
  destruct (negb (Index (slice_from F 1) "%{" =? -1)
            && (Index (slice_from F 1) "%{" <? IndexRune F "}")); [now simpl|].
  destruct (ph2verb (slice_to F (IndexRune F "}" + 1))). now simpl.
Qed.

Lemma parse_loop_same_but_time (n : nat) :
  forall s s', same_but_time s s' ->
    option_map fst (parse_loop n s) = option_map fst (parse_loop n s').
Proof.
  induction n as [|n IH]; intros s s' (Hf & Hi & Hm); cbn [parse_loop];
    rewrite <- Hi; destruct (p_idx s =? -1); simpl; try congruence.
  apply IH. unfold parse_iter. rewrite <- Hf, <- Hi, <- Hm.
  apply parse_body_same_but_time.
Qed.

(** The time layout of two runs that started from the layouts [d] and
    [d']: the same in both, or still [d] and [d']. *)
Lemma parse_body_layout (d d' m F t t' : string) :
  t = t' \/ (t = d /\ t' = d') ->
  p_timefmt (parse_body m F t) = p_timefmt (parse_body m F t') \/
  (p_timefmt (parse_body m F t) = d /\ p_timefmt (parse_body m F t') = d').
Proof.
  intros H. unfold parse_body.
  destruct (2 <? len F); [|exact H].
  destruct (Ascii.eqb (byte_at F 1) "{"); [|exact H].
  destruct (negb (IndexRune F "}" =? -1)); [|exact H].
  destruct (negb (Index (slice_from F 1) "%{" =? -1)
            && (Index (slice_from F 1) "%{" <? IndexRune F "}")); [exact H|].
  destruct (ph2verb (slice_to F (IndexRune F "}" + 1))) as [verb arg].
  cbn [p_timefmt].
  destruct (String.eqb verb "%[2]s" && negb (String.eqb arg EmptyString));
    [now left | exact H].
Qed.

Lemma parse_loop_layout (d d' : string) (n : nat) :
  forall s s',
    same_but_time s s' ->
    p_timefmt s = p_timefmt s' \/ (p_timefmt s = d /\ p_timefmt s' = d') ->
    (parse_loop n s = None /\ parse_loop n s' = None) \/
    exists m t t',
      parse_loop n s = Some (m, t) /\ parse_loop n s' = Some (m, t') /\
      (t = t' \/ (t = d /\ t' = d')).
Proof.
  induction n as [|n IH]; intros s s' (Hf & Hi & Hm) Ht; cbn [parse_loop];
    rewrite <- Hi; destruct (p_idx s =? -1).
  - right. exists (p_msgfmt s ++ p_format s), (p_timefmt s), (p_timefmt s').
    rewrite <- Hf, <- Hm. auto.
  - now left.
  - right. exists (p_msgfmt s ++ p_format s), (p_timefmt s), (p_timefmt s').
    rewrite <- Hf, <- Hm. auto.
  - apply IH; unfold parse_iter; rewrite <- Hf, <- Hi, <- Hm.
    + apply parse_body_same_but_time.
    + now apply parse_body_layout.
Qed.

End CompilerFacts.

(** ** The format compiler: what it reads, and the dangling placeholder *)

Section CompilerTheorems.

Lemma to_int_None (o : option nat) : to_int o = -1 -> o = None.
Proof. destruct o; simpl; [lia | reflexivity]. Qed.

Lemma to_int_Some (o : option nat) : to_int o <> -1 -> exists k, o = Some k.
Proof. destruct o as [k|]; simpl; [now exists k | congruence]. Qed.

(** The first ["%{"] of [mid ++ "%{" ++ rest] is the one shown when [mid]
    has none. *)
Lemma index_of_open_app (mid rest : string) :
  index_of "%{" mid = None ->
  index_of "%{" (mid ++ String "%" (String "{" rest)) = Some (String.length mid).
Proof.
  induction mid as [|c mid IH]; intros H; [reflexivity|].
  cbn [index_of] in H.
  destruct (HasPrefix (String c mid) "%{") eqn:Hp; [discriminate H|].
  destruct (index_of "%{" mid) eqn:Hi; [discriminate H|].
  cbn [append index_of String.length]. rewrite (IH eq_refl). cbn [option_map].
  replace (HasPrefix (String c (mid ++ String "%" (String "{" rest))) "%{") with false;
    [reflexivity|].
  cbn [HasPrefix] in Hp |- *. destruct (Ascii.eqb "%" c); [|reflexivity].
  destruct mid as [|d mid]; [reflexivity|].
  cbn [append HasPrefix] in Hp |- *. exact (eq_sym Hp).
Qed.

Lemma parse_loop_S (n : nat) (s : pstate) :
  p_idx s <> -1 -> parse_loop (S n) s = parse_loop n (parse_iter s).
Proof. intros H. cbn [parse_loop]. apply Z.eqb_neq in H. now rewrite H. Qed.

(** The body at a ["%{"] that is followed by another ["%{"] before any
    closing brace: the [continue] path. *)
Lemma parse_body_premature (m mid rest t : string) (k : nat) :
  index_of "%{" mid = None ->
  index_byte "}" mid = None ->
  index_byte "}" rest = Some k ->
  parse_body m (String "%" (String "{" (mid ++ String "%" (String "{" rest)))) t =
  mkP (String "{" (mid ++ String "%" (String "{" rest)))
      (Z.of_nat (S (String.length mid))) (m ++ "%%") t.
Proof.
  intros Hopen Hclose Hk. unfold parse_body.
  set (G := mid ++ String "%" (String "{" rest)).
  assert (HL : (2 <? len (String "%" (String "{" G))) = true).
  { apply Z.ltb_lt. unfold len, G. cbn [String.length]. rewrite length_append.
    cbn [String.length]. lia. }
  rewrite HL.
  change (byte_at (String "%" (String "{" G)) 1) with "{"%char.
  change (Ascii.eqb "{" "{") with true. cbv iota.
  change (slice_from (String "%" (String "{" G)) 1) with (String "{" G).
  assert (Hj : IndexRune (String "%" (String "{" G)) "}"
               = Z.of_nat (S (S (String.length mid + S (S k))))).
  { unfold IndexRune. cbn [index_byte].
    change (Ascii.eqb "%" "}") with false. change (Ascii.eqb "{" "}") with false.
    cbv iota. unfold G. rewrite (index_byte_app_None _ _ _ Hclose).
    cbn [index_byte]. change (Ascii.eqb "%" "}") with false.
    change (Ascii.eqb "{" "}") with false. cbv iota. rewrite Hk. reflexivity. }
  assert (Hi : Index (String "{" G) "%{" = Z.of_nat (S (String.length mid))).
  { unfold Index. cbn [index_of HasPrefix]. change (Ascii.eqb "%" "{") with false.
    cbn [andb]. cbv iota. unfold G. rewrite (index_of_open_app _ _ Hopen). reflexivity. }
  rewrite Hj, Hi.
  replace (negb (Z.of_nat (S (S (String.length mid + S (S k)))) =? -1)) with true
    by (symmetry; apply negb_true_iff, Z.eqb_neq; lia).
  replace (negb (Z.of_nat (S (String.length mid)) =? -1)) with true
    by (symmetry; apply negb_true_iff, Z.eqb_neq; lia).
  replace (Z.of_nat (S (String.length mid)) <? Z.of_nat (S (S (String.length mid + S (S k)))))
    with true by (symmetry; apply Z.ltb_lt; lia).
  reflexivity.
Qed.

(** [parseFormat] reads the state only through [defFmt] and
    [defTimeFmt]. *)
Lemma parse_scan_defaults (st1 st2 : State) (format : string) :
  defTimeFmt st1 = defTimeFmt st2 -> parse_scan st1 format = parse_scan st2 format.
Proof. intros H. unfold parse_scan. now rewrite H. Qed.

(** For a template of ten bytes or more the positional template does not
    depend on the state at all. *)
Lemma parseFormat_template_state_free (st1 st2 : State) (format : string) :
  10 <= len format ->
  option_map fst (parseFormat st1 format) = option_map fst (parseFormat st2 format).
Proof.
  intros H. unfold parseFormat.
  replace (len format <? 10) with false by (symmetry; apply Z.ltb_ge; lia).
  unfold parse_scan. apply parse_loop_same_but_time. now unfold same_but_time.
Qed.

(** A template with a percent sign among its last two bytes keeps the loop
    of [parseFormat] running for ever, whatever the fuel. *)
Lemma parse_loop_trailing_percent (n : nat) (st : State) :
  parse_loop n (mkP "%{message}%" (IndexRune "%{message}%" "%") EmptyString (defTimeFmt st))
  = None.
Proof.
  destruct n as [|n]; [reflexivity|].
  change (parse_loop n (mkP "%" 0 "%[7]s" (defTimeFmt st)) = None).
  now apply (parse_loop_stuck n "%" EmptyString).
Qed.

(** C7 (as amended): [parseFormat] is a function of its input string and of
    the two package defaults [defFmt] and [defTimeFmt], and of nothing else
    in the program state.  An input shorter than ten bytes gives the two
    defaults as they are.  For an input of ten bytes or more, in any two
    program states, both invocations return or neither does, the positional
    templates are identical, and the time layouts are identical or else each
    is the default layout of its own state.  So two invocations on equal
    strings in two states whose defaults are equal give identical
    results. *)
Theorem parseFormat_reads_defaults_only :
  forall (st1 st2 : State) (format : string),
    (len format < 10 ->
     parseFormat st1 format = Some (defFmt st1, defTimeFmt st1)) /\
    (10 <= len format ->
     (parseFormat st1 format = None /\ parseFormat st2 format = None) \/
     exists msgfmt t1 t2,
       parseFormat st1 format = Some (msgfmt, t1) /\
       parseFormat st2 format = Some (msgfmt, t2) /\
       (t1 = t2 \/ (t1 = defTimeFmt st1 /\ t2 = defTimeFmt st2))) /\
    (defFmt st1 = defFmt st2 -> defTimeFmt st1 = defTimeFmt st2 ->
     parseFormat st1 format = parseFormat st2 format).
Proof.
  intros st1 st2 format. unfold parseFormat. repeat split.
  - intros H. now replace (len format <? 10) with true by (symmetry; apply Z.ltb_lt; lia).
  - intros H. replace (len format <? 10) with false by (symmetry; apply Z.ltb_ge; lia).
    unfold parse_scan.
    apply (parse_loop_layout (defTimeFmt st1) (defTimeFmt st2)).
    + now unfold same_but_time.
    + right. split; reflexivity.
  - intros H1 H2. now rewrite H1, H2, (parse_scan_defaults st1 st2 format H2).
Qed.

End CompilerTheorems.

(** ** The renderer *)

Section RendererFacts.

Variable E : Env.

Lemma digit_not_percent (d : Z) : d < 10 -> Ascii.eqb (Fmt.digit d) "%" = false.
Proof.
  intros H. unfold Fmt.digit.
  assert (Hn : (Z.to_nat d <= 9)%nat) by lia.
  destruct (Z.to_nat d) as [|[|[|[|[|[|[|[|[|[|n]]]]]]]]]]; try reflexivity; lia.
Qed.

Lemma fmt_digits_no_percent (fuel : nat) :
  forall u acc, index_byte "%" acc = None ->
    index_byte "%" (Fmt.fmt_digits fuel u acc) = None.
Proof.
  induction fuel as [|fuel IH]; intros u acc H; [exact H|].
  cbn [Fmt.fmt_digits]. destruct (u <? 10) eqn:Hu.
  - apply Z.ltb_lt in Hu. cbn [index_byte]. now rewrite digit_not_percent, H.
  - apply IH. cbn [index_byte]. rewrite digit_not_percent, H; [reflexivity|].
    pose proof (Z.mod_pos_bound u 10). lia.
Qed.

Lemma fmtInteger_no_percent (v : Z) (isSigned : bool) :
  index_byte "%" (Fmt.fmtInteger v isSigned) = None.
Proof.
  unfold Fmt.fmtInteger. destruct (isSigned && (v <? 0)).
  - cbn [index_byte]. change (Ascii.eqb "-" "%") with false. cbv iota.
    now rewrite fmt_digits_no_percent.
  - now apply fmt_digits_no_percent.
Qed.

(** A template without a percent sign is copied, and all the operands are
    reported as extra. *)
Lemma Sprintf_no_verbs (format : string) (r : Info.t) (lvl : string) :
  index_byte "%" format = None ->
  Fmt.Sprintf (fmt_other E) format (Info.operands r lvl)
  = format ++ Info.marker ++ extra_report r lvl.
Proof.
  intros H. unfold Fmt.Sprintf. cbn [Fmt.doPrintf]. rewrite H. f_equal.
  unfold Fmt.extra, Info.operands, extra_report, Info.marker, Fmt.extraString.
  change (negb false && (0 <? Z.of_nat (List.length _))) with true. cbv iota.
  change (Z.to_nat 0) with O.
  cbn [skipn Fmt.extra_args Fmt.type_name append].
  repeat (rewrite append_assoc; cbn [append]). reflexivity.
Qed.

(** Where the marker cannot occur. *)
Lemma no_marker_cons (c : ascii) (s : string) :
  Ascii.eqb c "%" = false ->
  index_of Info.marker s = None -> index_of Info.marker (String c s) = None.
Proof.
  intros Hc Hs. cbn [index_of]. rewrite Hs.
  unfold Info.marker at 1. cbn [HasPrefix]. now rewrite Ascii.eqb_sym, Hc.
Qed.

Lemma no_marker_app_plain (a b : string) :
  index_byte "%" a = None ->
  index_of Info.marker b = None -> index_of Info.marker (a ++ b) = None.
Proof.
  induction a as [|c a IH]; intros Ha Hb; [exact Hb|].
  cbn [index_byte] in Ha. destruct (Ascii.eqb c "%") eqn:Hc; [discriminate Ha|].
  destruct (index_byte "%" a); [discriminate Ha|].
  cbn [append]. apply no_marker_cons; auto.
Qed.

Lemma no_marker_app (a b : string) :
  index_of Info.marker a = None ->
  index_of Info.marker b = None ->
  seam_safe b = true ->
  index_of Info.marker (a ++ b) = None.
Proof.
  intros Ha Hb Hsafe. induction a as [|c a IH]; [exact Hb|].
  cbn [index_of] in Ha.
  destruct (HasPrefix (String c a) Info.marker) eqn:Hp; [discriminate Ha|].
  destruct (index_of Info.marker a) eqn:Hi; [discriminate Ha|].
  cbn [append index_of]. rewrite (IH eq_refl).
  destruct (HasPrefix (String c (a ++ b)) Info.marker) eqn:Hq; [|reflexivity].
  exfalso.
  destruct (HasPrefix_app_cases Info.marker (String c a) b Hq) as [Hl|[Hlen Hs]];
    [congruence|].
  cbn [String.length] in Hlen, Hs. unfold Info.marker in Hlen, Hs.
  cbn [String.length] in Hlen.
  destruct b as [|x b]; [destruct (String.length a) as [|[|[|[|[|[|[|n]]]]]]];
                          cbn [drop HasPrefix] in Hs; try discriminate Hs; lia|].
  unfold seam_safe in Hsafe. apply negb_true_iff in Hsafe.
  cbn [existsb] in Hsafe. repeat (apply orb_false_iff in Hsafe;
                                   let H := fresh "Hx" in destruct Hsafe as [H Hsafe]).
  destruct (String.length a) as [|[|[|[|[|[|[|n]]]]]]]; try lia;
    cbn [drop HasPrefix] in Hs; apply andb_true_iff in Hs; destruct Hs as [Hs _];
    rewrite Ascii.eqb_sym in Hs; congruence.
Qed.

(** The marker right after a text without percent signs, followed by a
    text without the marker, is the last occurrence. *)
Lemma last_index_of_marker (f t : string) :
  index_byte "%" f = None ->
  index_of Info.marker ("!(EXTRA" ++ t) = None ->
  last_index_of Info.marker (f ++ Info.marker ++ t) = Some (String.length f).
Proof.
  intros Hf Ht. induction f as [|c f IH].
  - change (EmptyString ++ Info.marker ++ t) with (String "%" ("!(EXTRA" ++ t)).
    cbn [last_index_of String.length].
    rewrite (proj2 (last_index_of_None _ _) Ht).
    change (String "%" ("!(EXTRA" ++ t)) with (Info.marker ++ t).
    now rewrite HasPrefix_app.
  - cbn [index_byte] in Hf. destruct (Ascii.eqb c "%"); [discriminate Hf|].
    destruct (index_byte "%" f); [discriminate Hf|].
    cbn [append last_index_of String.length]. now rewrite (IH eq_refl).
Qed.

Lemma contains_false (s sep : string) :
  contains s sep = false -> index_of sep s = None.
Proof.
  unfold contains, Index. intros H. apply negb_false_iff, Z.eqb_eq in H.
  now apply to_int_None.
Qed.

(** The names of the six severities. *)
Lemma logLevelString_valid (r : Info.t) :
  valid_level (Info.Level r) ->
  exists lvl, Info.logLevelString r = Returns lvl /\
              In lvl Info.logLevels /\ index_byte "%" lvl = None.
Proof.
  unfold valid_level, CriticalLevel, DebugLevel, Info.logLevelString. intros H.
  assert (Hc : Info.Level r = 1 \/ Info.Level r = 2 \/ Info.Level r = 3 \/
               Info.Level r = 4 \/ Info.Level r = 5 \/ Info.Level r = 6) by lia.
  destruct Hc as [-> | [-> | [-> | [-> | [-> | ->]]]]]; eexists;
    (split; [reflexivity | split; [cbn; tauto | reflexivity]]).
Qed.

(** A record without the marker in its texts leaves a report without the
    marker. *)
Lemma extra_report_no_marker (r : Info.t) (lvl : string) :
  index_byte "%" lvl = None ->
  contains (Info.Time r) Info.marker = false ->
  contains (Info.Module_ r) Info.marker = false ->
  contains (Info.Filename r) Info.marker = false ->
  contains (Info.Message r) Info.marker = false ->
  contains (Info.Category r) Info.marker = false ->
  index_of Info.marker ("!(EXTRA" ++ extra_report r lvl) = None.
Proof.
  intros Hl Ht Hm Hf Hg Hc. apply contains_false in Ht, Hm, Hf, Hg, Hc.
  unfold extra_report. cbn [append].
  repeat first
    [ apply no_marker_cons; [reflexivity|]
    | apply no_marker_app_plain; [first [apply fmtInteger_no_percent | exact Hl]|]
    | apply no_marker_app; [assumption | | reflexivity]
    | reflexivity ].
Qed.

(** A template without a percent sign renders as itself. *)
Lemma Output_no_verbs (format : string) (r : Info.t) :
  index_byte "%" format = None ->
  valid_level (Info.Level r) ->
  contains (Info.Time r) Info.marker = false ->
  contains (Info.Module_ r) Info.marker = false ->
  contains (Info.Filename r) Info.marker = false ->
  contains (Info.Message r) Info.marker = false ->
  contains (Info.Category r) Info.marker = false ->
  Info.Output E r format = Returns format.
Proof.
  intros Hfmt Hv Ht Hm Hf Hg Hc.
  destruct (logLevelString_valid r Hv) as (lvl & Hlvl & _ & Hp).
  unfold Info.Output. rewrite Hlvl, (Sprintf_no_verbs _ _ _ Hfmt).
  unfold LastIndex.
  rewrite (last_index_of_marker _ _ Hfmt (extra_report_no_marker r lvl Hp Ht Hm Hf Hg Hc)).
  cbn [to_int].
  replace (negb (Z.of_nat (String.length format) =? -1)) with true
    by (symmetry; apply negb_true_iff, Z.eqb_neq; lia).
  unfold slice_to. now rewrite Nat2Z.id, take_app.
Qed.

(** The hypothesis on the texts is needed: a marker in a field that the
    report repeats moves the cut into the report. *)
Lemma Output_no_verbs_marker_in_field :
  Info.Output E
    (Info.mk 1 "2024-01-01 00:00:00" "core" WarningLevel 42 "main.go" "hello"
             "x%!(EXTRAy")
    "prefix {bad message"
  = Returns
      ("prefix {bad message%!(EXTRA uint64=1, string=2024-01-01 00:00:00, " ++
       "string=core, string=main.go, int=42, string=WARNING, string=hello, string=x").
Proof. vm_compute. reflexivity. Qed.

End RendererFacts.

(** ** The renderer: the cut, the golden line, the severity names *)

Section RendererTheorems.

Variable E : Env.

(** C2 (as amended): [Info.Output] formats the eight fields and, when the
    formatted text contains the marker ["%!(EXTRA"], returns the text before
    the LAST occurrence of the marker; a text without the marker is returned
    as it is. *)
Theorem Output_cuts_at_last_marker :
  forall (r : Info.t) (format lvl : string),
    Info.logLevelString r = Returns lvl ->
    let msg := Fmt.Sprintf (fmt_other E) format (Info.operands r lvl) in
    List.length (Info.operands r lvl) = 8%nat /\
    (((forall j, ~ occurs_at Info.marker msg j) /\
      Info.Output E r format = Returns msg) \/
     (exists i, occurs_at Info.marker msg i /\
                (forall j, occurs_at Info.marker msg j -> (j <= i)%nat) /\
                Info.Output E r format = Returns (take i msg))).
Proof.
  intros r format lvl Hl msg. split; [reflexivity|].
  unfold Info.Output. rewrite Hl. fold msg. unfold LastIndex.
  destruct (last_index_of Info.marker msg) as [i|] eqn:Hi.
  - right. exists i. destruct (last_index_of_Some _ _ _ Hi) as [Ho Hmax].
    split; [exact Ho | split; [exact Hmax|]].
    cbn [to_int].
    replace (negb (Z.of_nat i =? -1)) with true
      by (symmetry; apply negb_true_iff, Z.eqb_neq; lia).
    unfold slice_to. now rewrite Nat2Z.id.
  - left. split; [|reflexivity].
    apply index_of_None. now apply last_index_of_None.
Qed.

(** C3 (as amended): the template ["prefix %{bad message"] compiles to the
    positional template ["prefix {bad message"]: only the percent sign of
    the dangling placeholder is dropped, the brace and the rest of the input
    stay as literal text.  Rendering it with a record of a defined severity
    whose texts do not contain the marker gives exactly
    ["prefix {bad message"]. *)
Theorem unterminated_placeholder_drops_percent_only :
  forall (st : State) (r : Info.t),
    valid_level (Info.Level r) ->
    contains (Info.Time r) Info.marker = false ->
    contains (Info.Module_ r) Info.marker = false ->
    contains (Info.Filename r) Info.marker = false ->
    contains (Info.Message r) Info.marker = false ->
    contains (Info.Category r) Info.marker = false ->
    parseFormat st "prefix %{bad message"
      = Some ("prefix {bad message", defTimeFmt st) /\
    Info.Output E r "prefix {bad message" = Returns "prefix {bad message".
Proof.
  intros st r Hv Ht Hm Hf Hg Hc. split; [reflexivity|].
  now apply Output_no_verbs.
Qed.

(** C4: the built-in default template, which a new worker uses and which
    is what the placeholder form of the default line compiles to, renders
    the record of the example as the golden line, whatever its module and
    category. *)
Theorem default_template_golden_line :
  forall (module category : string),
    defFmt initial_state = builtinFmt /\
    Worker.format (NewWorker initial_state EmptyString 0 1 (os_Stderr E) O) = builtinFmt /\
    parseFormat initial_state "#%{id} %{time} %{filename}:%{line} ▶ %{lvl} %{message}"
      = Some (builtinFmt, builtinTimeFmt) /\
    Info.Output E
      (Info.mk 1 "2024-01-01 00:00:00" module WarningLevel 42 "main.go" "hello" category)
      builtinFmt
    = Returns "#1 2024-01-01 00:00:00 main.go:42 ▶ WAR hello".
Proof.
  intros module category. repeat split; vm_compute; reflexivity.
Qed.

(** C10: for a record whose [Level] is one of the six severities,
    [logLevelString] returns, without panic, the name at that position of
    CRITICAL, ERROR, WARNING, NOTICE, INFO, DEBUG, and the verb of [%{lvl}]
    renders its first three bytes; for any other [Level] the index
    expression panics, and so does [Output]. *)
Theorem logLevelString_total_on_severities :
  forall (r : Info.t),
    int_range (Info.Level r) ->
    (valid_level (Info.Level r) ->
     exists name abbr,
       Info.logLevelString r = Returns name /\
       nth_error Info.logLevels (Z.to_nat (Info.Level r - 1)) = Some name /\
       nth_error level_abbreviations (Z.to_nat (Info.Level r - 1)) = Some abbr /\
       Info.Output E r (phfs "%{lvl}") = Returns abbr) /\
    (~ valid_level (Info.Level r) ->
     Info.logLevelString r
       = Panics (IndexOutOfRange (wrap_int (Info.Level r - 1))) /\
     forall format,
       Info.Output E r format
         = Panics (IndexOutOfRange (wrap_int (Info.Level r - 1)))).
Proof.
  intros r Hr. unfold int_range in Hr. split.
  - unfold valid_level, CriticalLevel, DebugLevel. intros H.
    assert (Hc : Info.Level r = 1 \/ Info.Level r = 2 \/ Info.Level r = 3 \/
                 Info.Level r = 4 \/ Info.Level r = 5 \/ Info.Level r = 6) by lia.
    unfold Info.Output, Info.logLevelString.
    destruct Hc as [-> | [-> | [-> | [-> | [-> | ->]]]]];
      do 2 eexists; repeat split; vm_compute; reflexivity.
  - unfold valid_level, CriticalLevel, DebugLevel. intros H.
    assert (Hp : Info.logLevelString r
                 = Panics (IndexOutOfRange (wrap_int (Info.Level r - 1)))).
    { unfold Info.logLevelString.
      replace ((0 <=? wrap_int (Info.Level r - 1)) && (wrap_int (Info.Level r - 1) <? 6))
        with false; [reflexivity|].
      symmetry. unfold wrap_int.
      destruct (Z.eq_dec (Info.Level r) (- 2 ^ 63)) as [He|Hne];
        [rewrite He; reflexivity|].
      rewrite Z.mod_small by lia.
      apply andb_false_iff.
      destruct (Z_lt_le_dec (Info.Level r) 1);
        [left; apply Z.leb_gt | right; apply Z.ltb_ge]; lia. }
    split; [exact Hp|]. intros format. unfold Info.Output. now rewrite Hp.
Qed.

End RendererTheorems.

(** ** The worker: the severity gate *)

Section WorkerTheorems.

Variable E : Env.

Lemma not_held_filter (m : MutexPtr) (held : list MutexPtr) :
  existsb (Nat.eqb m) held = false ->
  filter (fun x => negb (Nat.eqb m x)) held = held.
Proof.
  induction held as [|x held IH]; [reflexivity|].
  cbn [existsb filter]. intros H. apply orb_false_iff in H. destruct H as [Hx Hh].
  rewrite Hx. cbn [negb]. now rewrite IH.
Qed.

(** Taking a free mutex and releasing it leaves the state as it was. *)
Lemma Lock_Unlock (st : State) (m : MutexPtr) :
  is_held st m = false -> Mutex_Unlock (Mutex_Lock st m) m = st.
Proof.
  unfold is_held, Mutex_Unlock, Mutex_Lock. destruct st as [f t n nx held].
  cbn [defFmt defTimeFmt logNo mutex_next mutex_held filter]. intros H.
  rewrite Nat.eqb_refl. cbn [negb]. now rewrite not_held_filter.
Qed.

(** An admitted record of a defined severity is written once. *)
Lemma write_record_writes (w : Worker.t) (lvl : LogLevel) (calldepth : Z)
    (info : Info.t) :
  valid_level (Info.Level info) ->
  exists n err w',
    Worker.write_record E w lvl calldepth info = (Returns (n, err), w') /\ wrote w w'.
Proof.
  intros Hv. destruct (logLevelString_valid info Hv) as (name & Hn & _).
  unfold Worker.write_record, Info.Output. rewrite Hn.
  match goal with
  | |- context [if ?c then Returns ?a else Returns ?b] =>
      replace (if c then Returns a else Returns b)
        with (Returns (if c then a else b)) by (now destruct c);
      generalize (if c then a else b)
  end.
  intros output. unfold log_Output, Writer_Write.
  cbn [lg_out lg_prefix lg_flag written failing].
  do 3 eexists. split; [reflexivity|].
  unfold wrote. cbn [Worker.Minion lg_out written]. eexists. reflexivity.
Qed.

Lemma wrote_irrefl (w : Worker.t) : ~ wrote w w.
Proof.
  intros [line H]. apply (f_equal (@List.length string)) in H.
  rewrite List.length_app in H. cbn [List.length] in H. lia.
Qed.

(** C1: a worker with minimum level [L] that is given a record of severity
    [S] (both among the six severities, the lock being free) writes to its
    sink if and only if [L >= S]; when [L < S] the call returns [0] bytes
    and no error and changes nothing.  A worker at Debug admits every
    severity, a worker at Critical admits Critical alone. *)
Theorem Worker_Log_severity_gate :
  forall (w : Worker.t) (st : State) (S : LogLevel) (calldepth : Z) (info : Info.t),
    valid_level (Worker.level w) ->
    valid_level S ->
    valid_level (Info.Level info) ->
    is_held st (Worker.lock w) = false ->
    exists res w' st',
      Worker.Log E w st S calldepth info = (res, w', st') /\
      st' = st /\
      (wrote w w' <-> S <= Worker.level w) /\
      (S <= Worker.level w -> exists n err, res = Returns (n, err)) /\
      (Worker.level w < S -> res = Returns (0, None) /\ w' = w) /\
      (Worker.level w = DebugLevel -> wrote w w') /\
      (Worker.level w = CriticalLevel -> (wrote w w' <-> S = CriticalLevel)).
Proof.
  intros w st S calldepth info HL HS Hi Hfree.
  unfold valid_level, CriticalLevel, DebugLevel in HL, HS.
  unfold Worker.Log. destruct (Worker.level w <? S) eqn:Hgate.
  - apply Z.ltb_lt in Hgate. exists (Returns (0, None)), w, st.
    pose proof (wrote_irrefl w) as Hn.
    split; [reflexivity|]. split; [reflexivity|].
    split; [split; [intros Hw; exfalso; now apply Hn | intros; lia]|].
    split; [intros; lia|].
    split; [intros _; split; reflexivity|].
    split; [intros HD; unfold DebugLevel in HD; lia|].
    intros HC. unfold CriticalLevel in *.
    split; [intros Hw; exfalso; now apply Hn | intros ->; lia].
  - apply Z.ltb_ge in Hgate. rewrite Hfree.
    destruct (write_record_writes w S calldepth info Hi) as (n & err & w' & Hw & Hwrote).
    rewrite Hw. exists (Returns (n, err)), w', (Mutex_Unlock (Mutex_Lock st (Worker.lock w)) (Worker.lock w)).
    split; [reflexivity|]. split; [now apply Lock_Unlock|].
    split; [split; [intros _; lia | intros _; exact Hwrote]|].
    split; [intros _; eauto|].
    split; [intros; lia|].
    split; [intros _; exact Hwrote|].
    intros HC. unfold CriticalLevel in *.
    split; [intros _; lia | intros _; exact Hwrote].
Qed.

End WorkerTheorems.

(** ** The facade: construction, the position override, the lock *)

Section LoggerTheorems.

Variable E : Env.

Lemma first_of_app {A : Type} (sel : arg -> option A) (l1 l2 : list arg) :
  first_of sel (l1 ++ l2)%list =
  match first_of sel l1 with
  | Some x => Some x
  | None => first_of sel l2
  end.
Proof.
  induction l1 as [|a l1 IH]; [reflexivity|].
  cbn [List.app first_of]. now destruct (sel a).
Qed.

Lemma last_of_cons {A : Type} (sel : arg -> option A) (a : arg) (l : list arg) :
  last_of sel (a :: l) =
  match last_of sel l with
  | Some x => Some x
  | None => sel a
  end.
Proof.
  unfold last_of. cbn [rev]. rewrite first_of_app. cbn [first_of].
  destruct (first_of sel (rev l)); [reflexivity | now destruct (sel a)].
Qed.

(** The loop of [New] keeps, for each kind of option, the last value given
    and otherwise the value it started with. *)
Lemma New_loop_last (args : list arg) :
  forall o,
    New_loop args o =
    if existsb is_other args then Panics unknown_argument
    else Returns (mkOptions (or_default (last_of as_string args) (opt_module o))
                            (or_default (last_of as_int args) (opt_color o))
                            (or_default (last_of as_writer args) (opt_out o))
                            (or_default (last_of as_level args) (opt_level o))).
Proof.
  induction args as [|a args IH]; intros o; [now destruct o|].
  cbn [New_loop existsb]. rewrite !last_of_cons.
  destruct a; cbn [is_other orb as_string as_int as_writer as_level];
    try reflexivity; rewrite IH; destruct (existsb is_other args); try reflexivity;
    cbn [opt_module opt_color opt_out opt_level];
    f_equal; f_equal;
    match goal with
    | |- context [last_of ?sel args] => destruct (last_of sel args); reflexivity
    end.
Qed.

(** C5 (as amended): [New] resolves its options by the type of each
    argument, and for each accepted type the LAST argument of that type
    wins; a type that is absent keeps its default (module ["DEFAULT"],
    colour [1], sink standard error, severity Info); an argument of any
    other type makes [New] panic. *)
Theorem New_resolves_last_occurrence :
  forall (st : State) (args : list arg),
    Logger.New E st args =
    if existsb is_other args then Panics unknown_argument
    else
      Returns
        (Logger.mk
           (or_default (last_of as_string args) "DEFAULT")
           (Worker.mk
              (mkLogLogger (or_default (last_of as_writer args) (os_Stderr E))
                           EmptyString 0)
              (or_default (last_of as_int args) 1)
              (defFmt st) (defTimeFmt st)
              (or_default (last_of as_level args) InfoLevel)
              (mutex_next st))
           0 (mutex_next st),
         None,
         snd (new_Mutex st)).
Proof.
  intros st args. unfold Logger.New. rewrite New_loop_last.
  destruct (existsb is_other args); reflexivity.
Qed.

(** After [SetPosOverride(p)] with [p] other than [-1], the next
    [log_internal] uses depth [p] and resets the field, and the one after
    it uses its own depth. *)
Lemma SetPosOverride_one_shot (l : Logger.t) (p pos pos' : Z) :
  p <> -1 ->
  Logger.resolve_pos (Logger.SetPosOverride l p) pos
    = (p, Logger.SetPosOverride l (-1)) /\
  Logger.resolve_pos (Logger.SetPosOverride l (-1)) pos'
    = (pos', Logger.SetPosOverride l (-1)).
Proof.
  intros Hp. unfold Logger.resolve_pos, Logger.SetPosOverride.
  cbn [Logger.posOverride Logger.Module_ Logger.worker Logger.WriteLock].
  apply Z.eqb_neq in Hp. rewrite Hp. cbn [negb]. split; reflexivity.
Qed.

(** C6, on the code: a logger made by [New] holds [0] in [posOverride],
    not the "no override" value [-1]; its first [log_internal] therefore
    asks [runtime.Caller] for depth [0] whatever depth the caller passed,
    and only then resets the field to [-1]. *)
Theorem New_posOverride_is_zero :
  forall (st : State) (args : list arg) (l : Logger.t) (err : option error)
         (st' : State),
    Logger.New E st args = Returns (l, err, st') ->
    Logger.posOverride l = 0 /\
    Logger.posOverride l <> -1 /\
    forall (st1 : State) (lvl : LogLevel) (category message : string) (pos : Z),
      Logger.resolve_pos l pos = (0, Logger.SetPosOverride l (-1)) /\
      exists info l1 st2,
        Logger.make_info E l st1 lvl category message pos = (info, l1, st2) /\
        Info.Filename info = path_Base E (fst (runtime_Caller E 0)) /\
        Info.Line info = snd (runtime_Caller E 0) /\
        Logger.posOverride l1 = -1.
Proof.
  intros st args l err st' H. unfold Logger.New in H.
  destruct (New_loop args (Logger.defaults E)) as [o| |]; try discriminate H.
  unfold new_Mutex in H. injection H as <- _ _. cbn [Logger.posOverride].
  split; [reflexivity | split; [lia|]].
  intros st1 lvl category message pos. split; [reflexivity|].
  unfold Logger.make_info, Logger.resolve_pos. cbn [Logger.posOverride].
  change (negb (0 =? -1)) with true. cbv iota.
  destruct (runtime_Caller E 0) as [file line].
  do 3 eexists. split; [reflexivity|]. repeat split.
Qed.

(** [New] establishes the sharing of the lock, and the operations that
    keep the worker keep it. *)
Lemma New_shares_lock (st : State) (args : list arg) (l : Logger.t)
    (err : option error) (st' : State) :
  Logger.New E st args = Returns (l, err, st') ->
  shares_lock l /\ Logger.WriteLock l = mutex_next st /\ mutex_next st' = S (mutex_next st).
Proof.
  intros H. unfold Logger.New in H.
  destruct (New_loop args (Logger.defaults E)) as [o| |]; try discriminate H.
  unfold new_Mutex in H. injection H as <- _ <-. repeat split.
Qed.

Lemma SetLogLevel_shares_lock (l : Logger.t) (lvl : LogLevel) :
  shares_lock l -> shares_lock (Logger.SetLogLevel l lvl).
Proof. unfold shares_lock. now destruct l as [m [mi c f t lv lk] p wl]. Qed.

Lemma SetPosOverride_shares_lock (l : Logger.t) (p : Z) :
  shares_lock l -> shares_lock (Logger.SetPosOverride l p).
Proof. unfold shares_lock. now destruct l. Qed.

Lemma SetFormat_shares_lock (l l' : Logger.t) (st : State) (fmt : string) :
  Logger.SetFormat l st fmt = Returns l' -> shares_lock l -> shares_lock l'.
Proof.
  unfold Logger.SetFormat, Worker.SetFormat, shares_lock.
  destruct (parseFormat st fmt) as [[m t]|]; [|discriminate].
  intros [= <-]. now cbn.
Qed.

Lemma log_internal_shares_lock (l l' : Logger.t) (st st' : State) (lvl : LogLevel)
    (category message : string) (pos : Z) (r : result (Z * option error)) :
  Logger.log_internal E l st lvl category message pos = (r, l', st') ->
  shares_lock l -> shares_lock l'.
Proof.
  unfold Logger.log_internal, Logger.make_info, Logger.resolve_pos, shares_lock.
  destruct (negb (Logger.posOverride l =? -1));
    destruct (runtime_Caller E _) as [file line];
    cbn [Logger.worker Logger.Module_ Logger.posOverride Logger.WriteLock];
    unfold Worker.Log, Worker.write_record;
    destruct (Worker.level (Logger.worker l) <? lvl);
    try (intros [= <- <- <-]; now cbn);
    destruct (is_held _ _);
    try (intros [= <- <- <-]; now cbn);
    destruct (Info.Output E _ _);
    try (intros [= <- <- <-]; now cbn);
    destruct (log_Output E _ _ _); intros [= <- <- <-]; now cbn.
Qed.

(** C9, on the code: [New] makes [WriteLock] and the worker's lock the same
    mutex, but [Update] gives the new worker a fresh mutex and leaves
    [WriteLock] as it was: after any [Update] the two differ. *)
Theorem Update_breaks_lock_sharing :
  forall (st st1 st2 : State) (args args' : list arg) (l l2 : Logger.t)
         (err : option error),
    Logger.New E st args = Returns (l, err, st1) ->
    Logger.Update E l st1 args' = Returns (l2, st2) ->
    shares_lock l /\
    Logger.WriteLock l2 = Logger.WriteLock l /\
    Worker.lock (Logger.worker l2) = S (Logger.WriteLock l) /\
    ~ shares_lock l2.
Proof.
  intros st st1 st2 args args' l l2 err HN HU.
  destruct (New_shares_lock _ _ _ _ _ HN) as (Hs & Hw & Hnext).
  unfold Logger.Update in HU.
  destruct (Update_loop args' (Logger.defaults E)) as [o| |]; try discriminate HU.
  unfold new_Mutex in HU. injection HU as <- _.
  unfold shares_lock in *.
  cbn [Logger.WriteLock Logger.worker Worker.lock Worker.SetLogLevel NewWorker].
  rewrite Hnext, <- Hw. split; [exact Hs|]. split; [reflexivity|].
  split; [reflexivity|]. lia.
Qed.

End LoggerTheorems.

(** ** The statements that the code does not satisfy *)

(** C2 as stated fails: with the template ["%{message}"], compiled to
    ["%[7]s"], and a message that contains the marker twice, [Output] cuts
    at the second occurrence and returns ["a%!(EXTRAb"], not the text
    ["a"] before the first occurrence. *)
Lemma Output_does_not_cut_at_first_marker :
  ~ (forall (E : Env) (st : State) (template format t : string)
            (r : Info.t) (lvl : string),
       parseFormat st template = Some (format, t) ->
       Info.logLevelString r = Returns lvl ->
       let msg := Fmt.Sprintf (fmt_other E) format (Info.operands r lvl) in
       Info.Output E r format =
       Returns (if contains msg Info.marker
                then slice_to msg (Index msg Info.marker) else msg)).
Proof.
  intros H.
  specialize (H demo_env initial_state "%{message}" "%[7]s" builtinTimeFmt
                marked_info "WARNING" eq_refl eq_refl).
  vm_compute in H. discriminate H.
Qed.

(** C3 as stated fails: the rendering of the compiled
    ["prefix %{bad message"] is ["prefix {bad message"], not ["prefix "]. *)
Lemma unterminated_placeholder_keeps_rest :
  ~ (forall (E : Env) (st : State) (r : Info.t),
       exists m t,
         parseFormat st "prefix %{bad message" = Some (m, t) /\
         Info.Output E r m = Returns "prefix ").
Proof.
  intros H. destruct (H demo_env initial_state demo_info) as (m & t & Hp & Ho).
  vm_compute in Hp. injection Hp as <- <-.
  vm_compute in Ho. discriminate Ho.
Qed.

(** C5 as stated fails: of two module names, [New] keeps the second. *)
Lemma New_does_not_take_first_occurrence :
  ~ (forall (E : Env) (st : State) (args : list arg) (l : Logger.t)
            (err : option error) (st' : State),
       Logger.New E st args = Returns (l, err, st') ->
       Logger.Module_ l = or_default (first_of as_string args) "DEFAULT" /\
       Worker.Color (Logger.worker l) = or_default (first_of as_int args) 1 /\
       lg_out (Worker.Minion (Logger.worker l))
         = or_default (first_of as_writer args) (os_Stderr E) /\
       Worker.level (Logger.worker l) = or_default (first_of as_level args) InfoLevel).
Proof.
  intros H.
  destruct (H demo_env initial_state [ArgString "first"; ArgString "second"]
              _ _ _ eq_refl) as [Hm _].
  vm_compute in Hm. discriminate Hm.
Qed.

(** C7 as stated fails: after [SetDefaultFormat] the same short template
    compiles to another pair. *)
Lemma parseFormat_depends_on_state :
  ~ (forall (st1 st2 : State) (template format : string),
       SetDefaultFormat st1 template = Returns st2 ->
       parseFormat st1 format = parseFormat st2 format).
Proof.
  intros H.
  specialize (H initial_state
                (mkState "%[7]s %[2]s" "2006" 0 O [])
                "%{message} %{time:2006}" "%{lvl}" eq_refl).
  vm_compute in H. discriminate H.
Qed.

(** C8 as stated fails: for ["%{inv %{message}"] the compiler gives
    ["%%{inv %[7]s"]; the opening brace is not consumed. *)
Lemma premature_placeholder_keeps_brace :
  ~ (forall (st : State) (pre mid rest : string),
       IndexRune pre "%" = -1 ->
       Index mid "%{" = -1 ->
       IndexRune mid "}" = -1 ->
       IndexRune rest "}" <> -1 ->
       10 <= len (pre ++ "%{" ++ mid ++ "%{" ++ rest) ->
       parseFormat st (pre ++ "%{" ++ mid ++ "%{" ++ rest) =
       result_with_prefix (pre ++ "%%" ++ mid) (parse_scan st ("%{" ++ rest))).
Proof.
  intros H.
  assert (Hc : parseFormat initial_state "%{inv %{message}"
               = Some ("%%inv %[7]s", builtinTimeFmt)).
  { apply (H initial_state EmptyString "inv " "message}");
      vm_compute; congruence. }
  vm_compute in Hc. discriminate Hc.
Qed.

(** ** The theorems at concrete inputs *)

Lemma Worker_Log_severity_gate_witness :
  exists res w' st',
    Worker.Log demo_env demo_worker initial_state WarningLevel 2 demo_info
      = (res, w', st') /\
    st' = initial_state /\
    (wrote demo_worker w' <-> WarningLevel <= Worker.level demo_worker) /\
    (WarningLevel <= Worker.level demo_worker ->
     exists n err, res = Returns (n, err)) /\
    (Worker.level demo_worker < WarningLevel ->
     res = Returns (0, None) /\ w' = demo_worker) /\
    (Worker.level demo_worker = DebugLevel -> wrote demo_worker w') /\
    (Worker.level demo_worker = CriticalLevel ->
     (wrote demo_worker w' <-> WarningLevel = CriticalLevel)).
Proof.
  apply (Worker_Log_severity_gate demo_env demo_worker initial_state WarningLevel 2
           demo_info).
  - vm_compute. split; discriminate.
  - vm_compute. split; discriminate.
  - vm_compute. split; discriminate.
  - reflexivity.
Defined.

Lemma Output_cuts_at_last_marker_witness :
  let msg := Fmt.Sprintf (fmt_other demo_env) "%[7]s"
               (Info.operands marked_info "WARNING") in
  List.length (Info.operands marked_info "WARNING") = 8%nat /\
  (((forall j, ~ occurs_at Info.marker msg j) /\
    Info.Output demo_env marked_info "%[7]s" = Returns msg) \/
   (exists i, occurs_at Info.marker msg i /\
              (forall j, occurs_at Info.marker msg j -> (j <= i)%nat) /\
              Info.Output demo_env marked_info "%[7]s" = Returns (take i msg))).
Proof.
  apply (Output_cuts_at_last_marker demo_env marked_info "%[7]s" "WARNING").
  reflexivity.
Defined.

Lemma unterminated_placeholder_drops_percent_only_witness :
  parseFormat initial_state "prefix %{bad message"
    = Some ("prefix {bad message", defTimeFmt initial_state) /\
  Info.Output demo_env demo_info "prefix {bad message"
    = Returns "prefix {bad message".
Proof.
  apply (unterminated_placeholder_drops_percent_only demo_env initial_state demo_info).
  - vm_compute. split; discriminate.
  - reflexivity.
  - reflexivity.
  - reflexivity.
  - reflexivity.
  - reflexivity.
Defined.

Lemma logLevelString_total_on_severities_witness :
  (valid_level (Info.Level demo_info) ->
   exists name abbr,
     Info.logLevelString demo_info = Returns name /\
     nth_error Info.logLevels (Z.to_nat (Info.Level demo_info - 1)) = Some name /\
     nth_error level_abbreviations (Z.to_nat (Info.Level demo_info - 1)) = Some abbr /\
     Info.Output demo_env demo_info (phfs "%{lvl}") = Returns abbr) /\
  (~ valid_level (Info.Level demo_info) ->
   Info.logLevelString demo_info
     = Panics (IndexOutOfRange (wrap_int (Info.Level demo_info - 1))) /\
   forall format,
     Info.Output demo_env demo_info format
       = Panics (IndexOutOfRange (wrap_int (Info.Level demo_info - 1)))).
Proof.
  apply (logLevelString_total_on_severities demo_env demo_info).
  vm_compute. split; [discriminate | reflexivity].
Defined.

Lemma parseFormat_reads_defaults_only_witness :
  parseFormat initial_state "%{lvl}"
    = Some (defFmt initial_state, defTimeFmt initial_state) /\
  ((parseFormat initial_state "%{lvl} %{message}" = None /\
    parseFormat (mkState "%[7]s" "2006" 7 3%nat [1%nat]) "%{lvl} %{message}" = None) \/
   exists msgfmt t1 t2,
     parseFormat initial_state "%{lvl} %{message}" = Some (msgfmt, t1) /\
     parseFormat (mkState "%[7]s" "2006" 7 3%nat [1%nat]) "%{lvl} %{message}"
       = Some (msgfmt, t2) /\
     (t1 = t2 \/
      (t1 = defTimeFmt initial_state /\
       t2 = defTimeFmt (mkState "%[7]s" "2006" 7 3%nat [1%nat])))) /\
  parseFormat initial_state "%{lvl} %{message}"
  = parseFormat (mkState builtinFmt builtinTimeFmt 7 3%nat [1%nat]) "%{lvl} %{message}".
Proof.
  split; [|split].
  - apply (proj1 (parseFormat_reads_defaults_only initial_state initial_state "%{lvl}")).
    vm_compute. reflexivity.
  - apply (proj1 (proj2 (parseFormat_reads_defaults_only initial_state
                           (mkState "%[7]s" "2006" 7 3%nat [1%nat])
                           "%{lvl} %{message}"))).
    vm_compute. discriminate.
  - apply (proj2 (proj2 (parseFormat_reads_defaults_only initial_state
                           (mkState builtinFmt builtinTimeFmt 7 3%nat [1%nat])
                           "%{lvl} %{message}"))).
    + reflexivity.
    + reflexivity.
Defined.

Lemma New_posOverride_is_zero_witness :
  Logger.posOverride (Logger.mk "app" demo_worker 0 O) = 0 /\
  Logger.posOverride (Logger.mk "app" demo_worker 0 O) <> -1 /\
  forall (st1 : State) (lvl : LogLevel) (category message : string) (pos : Z),
    Logger.resolve_pos (Logger.mk "app" demo_worker 0 O) pos
      = (0, Logger.SetPosOverride (Logger.mk "app" demo_worker 0 O) (-1)) /\
    exists info l1 st2,
      Logger.make_info demo_env (Logger.mk "app" demo_worker 0 O) st1 lvl category
        message pos = (info, l1, st2) /\
      Info.Filename info = path_Base demo_env (fst (runtime_Caller demo_env 0)) /\
      Info.Line info = snd (runtime_Caller demo_env 0) /\
      Logger.posOverride l1 = -1.
Proof.
  apply (New_posOverride_is_zero demo_env initial_state
           [ArgString "app"; ArgInt 0; ArgLogLevel InfoLevel]
           (Logger.mk "app" demo_worker 0 O) None
           (mkState builtinFmt builtinTimeFmt 0 1%nat [])).
  reflexivity.
Defined.

Lemma Update_breaks_lock_sharing_witness :
  shares_lock (Logger.mk "app" demo_worker 0 O) /\
  Logger.WriteLock
    (Logger.mk "app"
       (Worker.mk (mkLogLogger plain_writer EmptyString 0) 1 builtinFmt builtinTimeFmt
                  DebugLevel 1%nat) 0 O)
    = Logger.WriteLock (Logger.mk "app" demo_worker 0 O) /\
  Worker.lock
    (Logger.worker
       (Logger.mk "app"
          (Worker.mk (mkLogLogger plain_writer EmptyString 0) 1 builtinFmt builtinTimeFmt
                     DebugLevel 1%nat) 0 O))
    = S (Logger.WriteLock (Logger.mk "app" demo_worker 0 O)) /\
  ~ shares_lock
      (Logger.mk "app"
         (Worker.mk (mkLogLogger plain_writer EmptyString 0) 1 builtinFmt builtinTimeFmt
                    DebugLevel 1%nat) 0 O).
Proof.
  apply (Update_breaks_lock_sharing demo_env initial_state
           (mkState builtinFmt builtinTimeFmt 0 1%nat [])
           (mkState builtinFmt builtinTimeFmt 0 2%nat [])
           [ArgString "app"; ArgInt 0; ArgLogLevel InfoLevel]
           [ArgLogLevel DebugLevel]
           (Logger.mk "app" demo_worker 0 O)
           (Logger.mk "app"
              (Worker.mk (mkLogLogger plain_writer EmptyString 0) 1 builtinFmt
                         builtinTimeFmt DebugLevel 1%nat) 0 O)
           None).
  - reflexivity.
  - reflexivity.
Defined.

(** * Further properties of the package *)

(** ** The compiler on well-formed templates *)

Section CompilerWellFormed.

Lemma take_app_plus (a b : string) (i : nat) :
  take (String.length a + i) (a ++ b) = a ++ take i b.
Proof. induction a as [|c a IH]; cbn [String.length Nat.add take append]; congruence. Qed.

Lemma drop_app_plus (a b : string) (i : nat) :
  drop (String.length a + i) (a ++ b) = drop i b.
Proof. induction a as [|c a IH]; cbn [String.length Nat.add drop append]; auto. Qed.

Lemma index_of_open_plain (a R : string) :
  index_byte "%" a = None ->
  index_of "%{" (a ++ R) = option_map (Nat.add (String.length a)) (index_of "%{" R).
Proof.
  induction a as [|c a IH]; intros H.
  - cbn [append String.length]. now destruct (index_of "%{" R).
  - cbn [index_byte] in H. destruct (Ascii.eqb c "%") eqn:Hc; [discriminate H|].
    destruct (index_byte "%" a); [discriminate H|].
    cbn [append index_of HasPrefix String.length].
    rewrite Ascii.eqb_sym, Hc. cbn [andb]. rewrite (IH eq_refl).
    now destruct (index_of "%{" R).
Qed.

(** The body at a placeholder: its verb is appended, its argument becomes
    the time layout when the verb is that of [time], and the loop goes on
    behind the closing brace. *)
Lemma parse_body_placeholder (m body R t : string) :
  index_byte "%" body = None ->
  index_byte "}" body = None ->
  parse_body m (placeholder body ++ R) t =
  mkP R (IndexRune R "%")
      (m ++ fst (ph2verb (placeholder body)))
      (if String.eqb (fst (ph2verb (placeholder body))) "%[2]s"
          && negb (String.eqb (snd (ph2verb (placeholder body))) EmptyString)
       then snd (ph2verb (placeholder body)) else t).
Proof.
  intros Hpct Hclose. unfold parse_body.
  assert (HF : placeholder body ++ R = String "%" (String "{" (body ++ String "}" R))).
  { unfold placeholder. cbn [append]. now rewrite append_assoc. }
  assert (Hlen : String.length (placeholder body) = S (S (S (String.length body)))).
  { unfold placeholder. cbn [append String.length]. rewrite length_append.
    cbn [String.length]. lia. }
  assert (HL : (2 <? len (placeholder body ++ R)) = true).
  { apply Z.ltb_lt. unfold len. rewrite length_append, Hlen. lia. }
  rewrite HL.
  assert (Hb : byte_at (placeholder body ++ R) 1 = "{"%char) by (now rewrite HF).
  rewrite Hb. change (Ascii.eqb "{" "{") with true. cbv iota.
  assert (Hj : IndexRune (placeholder body ++ R) "}" = Z.of_nat (S (S (String.length body)))).
  { rewrite HF. unfold IndexRune. cbn [index_byte].
    change (Ascii.eqb "%" "}") with false. change (Ascii.eqb "{" "}") with false.
    cbv iota. rewrite (index_byte_app_None _ _ _ Hclose). cbn [index_byte].
    change (Ascii.eqb "}" "}") with true. cbv iota. cbn [option_map to_int].
    f_equal. lia. }
  rewrite Hj.
  replace (negb (Z.of_nat (S (S (String.length body))) =? -1)) with true
    by (symmetry; apply negb_true_iff, Z.eqb_neq; lia).
  assert (Hi : Index (slice_from (placeholder body ++ R) 1) "%{" = -1 \/
               Z.of_nat (S (S (String.length body)))
               <= Index (slice_from (placeholder body ++ R) 1) "%{").
  { rewrite HF. change (slice_from (String "%" (String "{" (body ++ String "}" R))) 1)
      with (String "{" (body ++ String "}" R)).
    replace (String "{" (body ++ String "}" R))
      with (String "{" (body ++ "}") ++ R)
      by (cbn [append]; now rewrite append_assoc).
    unfold Index. rewrite index_of_open_plain.
    - destruct (index_of "%{" R) as [k|]; [right | now left].
      cbn [option_map to_int String.length]. rewrite length_append.
      cbn [String.length]. lia.
    - cbn [index_byte]. change (Ascii.eqb "{" "%") with false. cbv iota.
      rewrite (index_byte_app_None _ _ _ Hpct). reflexivity. }
  replace (negb (Index (slice_from (placeholder body ++ R) 1) "%{" =? -1)
           && (Index (slice_from (placeholder body ++ R) 1) "%{"
               <? Z.of_nat (S (S (String.length body))))) with false.
  2:{ symmetry. apply andb_false_iff. destruct Hi as [Hi|Hi].
      - left. rewrite Hi. reflexivity.
      - right. apply Z.ltb_ge. exact Hi. }
  assert (Hto : slice_to (placeholder body ++ R) (Z.of_nat (S (S (String.length body))) + 1)
                = placeholder body).
  { unfold slice_to.
    replace (Z.to_nat (Z.of_nat (S (S (String.length body))) + 1))
      with (String.length (placeholder body)) by (rewrite Hlen; lia).
    apply take_app. }
  assert (Hfrom : slice_from (placeholder body ++ R)
                    (Z.of_nat (S (S (String.length body))) + 1) = R).
  { unfold slice_from.
    replace (Z.to_nat (Z.of_nat (S (S (String.length body))) + 1))
      with (String.length (placeholder body)) by (rewrite Hlen; lia).
    apply drop_app. }
  rewrite Hto, Hfrom. destruct (ph2verb (placeholder body)) as [verb arg]. reflexivity.
Qed.

(** The body at a single percent sign: it is escaped. *)
Lemma parse_body_percent (m R t : string) :
  (2 <= String.length R)%nat ->
  Fmt.starts_with "{" R = false ->
  parse_body m (String "%" R) t = mkP R (IndexRune R "%") (m ++ "%%") t.
Proof.
  intros HL Hb. unfold parse_body.
  replace (2 <? len (String "%" R)) with true
    by (symmetry; apply Z.ltb_lt; unfold len; cbn [String.length]; lia).
  destruct R as [|c R]; [cbn [String.length] in HL; lia|].
  change (byte_at (String "%" (String c R)) 1) with c.
  unfold Fmt.starts_with in Hb. rewrite Hb. reflexivity.
Qed.

(** A literal in front of the loop state moves into [msgfmt]. *)
Lemma parse_loop_literal (n : nat) (s R m t : string) :
  index_byte "%" s = None ->
  parse_loop n (mkP (s ++ R) (IndexRune (s ++ R) "%") m t)
  = parse_loop n (mkP R (IndexRune R "%") (m ++ s) t).
Proof.
  intros Hs. unfold IndexRune. rewrite (index_byte_app_None _ _ _ Hs).
  destruct (index_byte "%" R) as [i|] eqn:Hi; cbn [option_map to_int].
  - destruct n as [|n].
    + cbn [parse_loop p_idx].
      replace (Z.of_nat (String.length s + i) =? -1) with false
        by (symmetry; apply Z.eqb_neq; lia).
      replace (Z.of_nat i =? -1) with false by (symmetry; apply Z.eqb_neq; lia).
      reflexivity.
    + rewrite !parse_loop_S by (cbn [p_idx]; lia).
      unfold parse_iter. cbn [p_msgfmt p_format p_idx p_timefmt].
      unfold slice_to, slice_from. rewrite !Nat2Z.id.
      now rewrite take_app_plus, drop_app_plus, append_assoc.
  - destruct n; cbn [parse_loop p_idx]; change (-1 =? -1) with true; cbv iota;
      cbn [p_msgfmt p_format p_timefmt]; now rewrite append_assoc.
Qed.

(** The loop on the parts of a well-formed template. *)
Lemma parse_loop_well_formed (items : list item) :
  forall (n : nat) (m t : string),
    well_formed items ->
    (String.length (template items) <= n)%nat ->
    parse_loop n (mkP (template items) (IndexRune (template items) "%") m t)
    = Some (m ++ compiled items, time_layout items t).
Proof.
  induction items as [|i items IH]; intros n m t Hwf Hn.
  - destruct n; reflexivity.
  - destruct i as [s|body|]; cbn [template item_text compiled item_verb time_layout
                                   well_formed] in *.
    + destruct Hwf as [Hs Hwf]. rewrite (parse_loop_literal n s _ m t Hs).
      rewrite IH; [now rewrite append_assoc | exact Hwf |].
      rewrite length_append in Hn. lia.
    + destruct Hwf as (Hp & Hc & Hwf).
      assert (H0 : IndexRune (placeholder body ++ template items) "%" = 0)
        by (unfold placeholder; reflexivity).
      rewrite H0.
      assert (Hlen : (3 <= String.length (placeholder body))%nat).
      { unfold placeholder. cbn [append String.length]. rewrite length_append.
        cbn [String.length]. lia. }
      rewrite length_append in Hn.
      destruct n as [|n]; [lia|].
      rewrite parse_loop_S by (cbn [p_idx]; lia).
      unfold parse_iter. cbn [p_msgfmt p_format p_idx p_timefmt].
      change (slice_to (placeholder body ++ template items) 0) with EmptyString.
      change (slice_from (placeholder body ++ template items) 0)
        with (placeholder body ++ template items).
      rewrite (parse_body_placeholder _ _ _ _ Hp Hc).
      destruct (ph2verb (placeholder body)) as [verb arg]. cbn [fst snd].
      rewrite IH; [now rewrite append_empty_r, append_assoc | exact Hwf | lia].
    + destruct Hwf as (HL & Hb & Hwf).
      change ("%" ++ template items) with (String "%" (template items)) in *.
      change (IndexRune (String "%" (template items)) "%") with 0.
      cbn [String.length] in Hn. destruct n as [|n]; [lia|].
      rewrite parse_loop_S by (cbn [p_idx]; lia).
      unfold parse_iter. cbn [p_msgfmt p_format p_idx p_timefmt].
      change (slice_to (String "%" (template items)) 0) with EmptyString.
      change (slice_from (String "%" (template items)) 0)
        with (String "%" (template items)).
      rewrite (parse_body_percent _ _ _ HL Hb).
      rewrite IH; [now rewrite append_empty_r, append_assoc | exact Hwf | lia].
Qed.

Lemma parse_scan_well_formed (st : State) (items : list item) :
  well_formed items ->
  parse_scan st (template items)
  = Some (compiled items, time_layout items (defTimeFmt st)).
Proof. intros Hwf. unfold parse_scan. now rewrite parse_loop_well_formed. Qed.

Lemma parseFormat_long (st : State) (format : string) :
  10 <= len format -> parseFormat st format = parse_scan st format.
Proof.
  intros H. unfold parseFormat.
  now replace (len format <? 10) with false by (symmetry; apply Z.ltb_ge; lia).
Qed.

(** X1: a template of ten bytes or more made of literal text without
    percent signs, placeholders [%{body}] whose body has neither a percent
    sign nor a closing brace, and single percent signs that are each
    followed by at least two more bytes of the template, the first of them
    not an opening brace ([well_formed]), compiles part by part: to its
    literals, the verb of each placeholder (nothing for one that is not in
    the table) and ["%%"] for each single percent sign; the time layout is
    the non-empty argument of the last [%{time:...}], or the default one. *)
Theorem parseFormat_well_formed :
  forall (st : State) (items : list item),
    well_formed items ->
    10 <= len (template items) ->
    parseFormat st (template items)
    = Some (compiled items, time_layout items (defTimeFmt st)).
Proof.
  intros st items Hwf Hlen.
  now rewrite parseFormat_long, parse_scan_well_formed.
Qed.

End CompilerWellFormed.

(** ** The dangling placeholder, wherever it stands *)

Section DanglingPlaceholder.

(** No ["%{"] begins in [a] or across its end when a closing brace
    follows. *)
Lemma index_of_open_closed (a R : string) :
  index_of "%{" a = None ->
  index_of "%{" (a ++ String "}" R)
  = option_map (Nat.add (S (String.length a))) (index_of "%{" R).
Proof.
  induction a as [|c a IH]; intros H.
  - cbn [append index_of HasPrefix String.length].
    change (Ascii.eqb "%" "}") with false. cbn [andb]. cbv iota.
    now destruct (index_of "%{" R).
  - cbn [index_of] in H.
    destruct (HasPrefix (String c a) "%{") eqn:Hp; [discriminate H|].
    destruct (index_of "%{" a) eqn:Hi; [discriminate H|].
    cbn [append index_of String.length]. rewrite (IH eq_refl).
    replace (HasPrefix (String c (a ++ String "}" R)) "%{") with false.
    + now destruct (index_of "%{" R).
    + cbn [HasPrefix] in Hp |- *. destruct (Ascii.eqb "%" c); [|reflexivity].
      destruct a as [|d a].
      * cbn [append]. change (Ascii.eqb "{" "}") with false. reflexivity.
      * cbn [append HasPrefix] in Hp |- *. exact (eq_sym Hp).
Qed.

(** The body at a placeholder whose body may hold percent signs. *)
Lemma parse_body_placeholder_open (m body R t : string) :
  index_of "%{" body = None ->
  index_byte "}" body = None ->
  parse_body m (placeholder body ++ R) t =
  mkP R (IndexRune R "%")
      (m ++ fst (ph2verb (placeholder body)))
      (if String.eqb (fst (ph2verb (placeholder body))) "%[2]s"
          && negb (String.eqb (snd (ph2verb (placeholder body))) EmptyString)
       then snd (ph2verb (placeholder body)) else t).
Proof.
  intros Hopen Hclose. unfold parse_body.
  assert (HF : placeholder body ++ R = String "%" (String "{" (body ++ String "}" R))).
  { unfold placeholder. cbn [append]. now rewrite append_assoc. }
  assert (Hlen : String.length (placeholder body) = S (S (S (String.length body)))).
  { unfold placeholder. cbn [append String.length]. rewrite length_append.
    cbn [String.length]. lia. }
  assert (HL : (2 <? len (placeholder body ++ R)) = true).
  { apply Z.ltb_lt. unfold len. rewrite length_append, Hlen. lia. }
  rewrite HL.
  assert (Hb : byte_at (placeholder body ++ R) 1 = "{"%char) by (now rewrite HF).
  rewrite Hb. change (Ascii.eqb "{" "{") with true. cbv iota.
  assert (Hj : IndexRune (placeholder body ++ R) "}" = Z.of_nat (S (S (String.length body)))).
  { rewrite HF. unfold IndexRune. cbn [index_byte].
    change (Ascii.eqb "%" "}") with false. change (Ascii.eqb "{" "}") with false.
    cbv iota. rewrite (index_byte_app_None _ _ _ Hclose). cbn [index_byte].
    change (Ascii.eqb "}" "}") with true. cbv iota. cbn [option_map to_int].
    f_equal. lia. }
  rewrite Hj.
  replace (negb (Z.of_nat (S (S (String.length body))) =? -1)) with true
    by (symmetry; apply negb_true_iff, Z.eqb_neq; lia).
  assert (Hi : Index (slice_from (placeholder body ++ R) 1) "%{" = -1 \/
               Z.of_nat (S (S (String.length body)))
               <= Index (slice_from (placeholder body ++ R) 1) "%{").
  { rewrite HF. change (slice_from (String "%" (String "{" (body ++ String "}" R))) 1)
      with (String "{" body ++ String "}" R).
    unfold Index. rewrite index_of_open_closed.
    - destruct (index_of "%{" R) as [k|]; [right | now left].
      cbn [option_map to_int String.length]. lia.
    - cbn [index_of HasPrefix]. change (Ascii.eqb "%" "{") with false.
      cbn [andb]. cbv iota. now rewrite Hopen. }
  replace (negb (Index (slice_from (placeholder body ++ R) 1) "%{" =? -1)
           && (Index (slice_from (placeholder body ++ R) 1) "%{"
               <? Z.of_nat (S (S (String.length body))))) with false.
  2:{ symmetry. apply andb_false_iff. destruct Hi as [Hi|Hi].
      - left. rewrite Hi. reflexivity.
      - right. apply Z.ltb_ge. exact Hi. }
  assert (Hto : slice_to (placeholder body ++ R) (Z.of_nat (S (S (String.length body))) + 1)
                = placeholder body).
  { unfold slice_to.
    replace (Z.to_nat (Z.of_nat (S (S (String.length body))) + 1))
      with (String.length (placeholder body)) by (rewrite Hlen; lia).
    apply take_app. }
  assert (Hfrom : slice_from (placeholder body ++ R)
                    (Z.of_nat (S (S (String.length body))) + 1) = R).
  { unfold slice_from.
    replace (Z.to_nat (Z.of_nat (S (S (String.length body))) + 1))
      with (String.length (placeholder body)) by (rewrite Hlen; lia).
    apply drop_app. }
  rewrite Hto, Hfrom. destruct (ph2verb (placeholder body)) as [verb arg]. reflexivity.
Qed.

(** The loop on the parts in front of [F]: after at most one round for
    each part it stands at the first percent sign of [F], with the parts
    compiled. *)
Lemma parse_loop_items (items : list item) :
  forall (F m t : string),
    well_formed_before F items ->
    exists k,
      (k <= String.length (template items))%nat /\
      forall n,
        parse_loop (k + n)
          (mkP (template items ++ F) (IndexRune (template items ++ F) "%") m t)
        = parse_loop n
            (mkP F (IndexRune F "%") (m ++ compiled items) (time_layout items t)).
Proof.
  induction items as [|i items IH]; intros F m t Hwf.
  - exists O. split; [cbn; lia|]. intros n.
    cbn [template compiled time_layout append Nat.add]. now rewrite append_empty_r.
  - destruct i as [s|body|];
      cbn [template item_text compiled item_verb time_layout well_formed_before] in *.
    + destruct Hwf as [Hs Hwf].
      destruct (IH F (m ++ s) t Hwf) as (k & Hk & Hrun).
      exists k. split; [rewrite length_append; lia|]. intros n.
      rewrite append_assoc, (parse_loop_literal _ s _ m t Hs), Hrun.
      now rewrite append_assoc.
    + destruct Hwf as (Hp & Hc & Hwf).
      destruct (ph2verb (placeholder body)) as [verb arg] eqn:Hv.
      destruct (IH F (m ++ verb)
                  (if String.eqb verb "%[2]s" && negb (String.eqb arg EmptyString)
                   then arg else t) Hwf) as (k & Hk & Hrun).
      exists (S k).
      split; [rewrite length_append; unfold placeholder; cbn [append String.length]; lia|].
      intros n. rewrite append_assoc.
      assert (H0 : IndexRune (placeholder body ++ template items ++ F) "%" = 0)
        by (unfold placeholder; reflexivity).
      rewrite H0. cbn [Nat.add].
      rewrite parse_loop_S by (cbn [p_idx]; lia).
      unfold parse_iter. cbn [p_msgfmt p_format p_idx p_timefmt].
      change (slice_to (placeholder body ++ template items ++ F) 0) with EmptyString.
      change (slice_from (placeholder body ++ template items ++ F) 0)
        with (placeholder body ++ template items ++ F).
      rewrite (parse_body_placeholder_open _ _ _ _ Hp Hc), Hv. cbn [fst snd].
      rewrite append_empty_r, Hrun. now rewrite append_assoc.
    + destruct Hwf as (HL & Hb & Hwf).
      destruct (IH F (m ++ "%%") t Hwf) as (k & Hk & Hrun).
      exists (S k). split; [cbn [append String.length]; lia|]. intros n.
      change (("%" ++ template items) ++ F) with (String "%" (template items ++ F)).
      change (IndexRune (String "%" (template items ++ F)) "%") with 0.
      cbn [Nat.add].
      rewrite parse_loop_S by (cbn [p_idx]; lia).
      unfold parse_iter. cbn [p_msgfmt p_format p_idx p_timefmt].
      change (slice_to (String "%" (template items ++ F)) 0) with EmptyString.
      change (slice_from (String "%" (template items ++ F)) 0)
        with (String "%" (template items ++ F)).
      rewrite (parse_body_percent _ _ _ HL Hb).
      rewrite append_empty_r, Hrun. now rewrite append_assoc.
Qed.

(** Two rounds of the loop that stands at a ["%{"] followed by another
    ["%{"] before the closing brace: the escaped percent sign, then the
    brace and the text up to the second ["%{"] as they are. *)
Lemma parse_loop_premature (n : nat) (m mid rest t : string) :
  Index mid "%{" = -1 ->
  IndexRune mid "}" = -1 ->
  IndexRune rest "}" <> -1 ->
  parse_loop (S (S n)) (mkP ("%{" ++ mid ++ "%{" ++ rest) 0 m t)
  = parse_loop (S n) (mkP ("%{" ++ rest) 0 (m ++ "%%{" ++ mid) t).
Proof.
  intros Hopen Hclose Hrest.
  apply to_int_None in Hopen, Hclose.
  apply to_int_Some in Hrest. destruct Hrest as [k Hk].
  cbn [append].
  set (F2 := String "%" (String "{" rest)).
  set (G := String "{" (mid ++ F2)).
  rewrite parse_loop_S by (cbn [p_idx]; lia).
  unfold parse_iter. cbn [p_msgfmt p_format p_idx p_timefmt].
  change (slice_to (String "%" G) 0) with EmptyString.
  change (slice_from (String "%" G) 0) with (String "%" G).
  unfold G at 1, F2 at 1. rewrite (parse_body_premature _ _ _ _ k Hopen Hclose Hk).
  fold F2. fold G.
  rewrite !parse_loop_S by (cbn [p_idx]; lia).
  unfold parse_iter. cbn [p_msgfmt p_format p_idx p_timefmt].
  change (slice_to F2 0) with EmptyString.
  change (slice_from F2 0) with F2.
  unfold slice_to, slice_from. rewrite Nat2Z.id.
  unfold G. cbn [take drop]. rewrite take_app, drop_app.
  f_equal. f_equal.
  rewrite !append_empty_r, !append_assoc. reflexivity.
Qed.

(** On from a time layout [t]: the parts, the dangling placeholder, and
    the rest as on its own. *)
Lemma parse_scan_with_premature (t : string) (items : list item) (mid rest : string) :
  well_formed_before ("%{" ++ mid ++ "%{" ++ rest) items ->
  Index mid "%{" = -1 ->
  IndexRune mid "}" = -1 ->
  IndexRune rest "}" <> -1 ->
  parse_scan_with t (template items ++ "%{" ++ mid ++ "%{" ++ rest) =
  result_with_prefix (compiled items ++ "%%{" ++ mid)
    (parse_scan_with (time_layout items t) ("%{" ++ rest)).
Proof.
  intros Hwf Hopen Hclose Hrest. unfold parse_scan_with.
  set (F := "%{" ++ mid ++ "%{" ++ rest) in *.
  set (F2 := "%{" ++ rest).
  destruct (parse_loop_items items F EmptyString t Hwf) as (k & Hk & Hrun).
  assert (HF : String.length F = S (S (String.length mid + String.length F2))).
  { unfold F, F2. cbn [append String.length]. rewrite length_append.
    cbn [String.length]. lia. }
  assert (HF2 : String.length F2 = S (S (String.length rest))) by reflexivity.
  replace (String.length (template items ++ F))
    with (k + S (S (String.length (template items) - k + String.length mid
                    + String.length F2)))%nat
    by (rewrite length_append, HF; lia).
  rewrite Hrun. change (IndexRune F "%") with 0.
  unfold F. rewrite (parse_loop_premature _ _ _ _ _ Hopen Hclose Hrest).
  fold F2. change (IndexRune F2 "%") with 0.
  cbn [append].
  rewrite <- parse_loop_with_prefix. unfold with_prefix.
  cbn [p_format p_idx p_msgfmt p_timefmt]. rewrite append_empty_r.
  apply parse_loop_fuel.
  - right. cbn [p_idx p_format]. split; [lia|]. now exists (String "{" rest).
  - unfold remaining. cbn [p_idx p_format]. change (0 =? -1) with false. cbv iota.
    change (Z.to_nat 0) with O. lia.
  - unfold remaining. cbn [p_idx p_format]. change (0 =? -1) with false. cbv iota.
    change (Z.to_nat 0) with O. lia.
Qed.

(** C8 (as amended): a template of ten bytes or more in which, after parts
    that compile as usual (literal text, complete placeholders, single
    percent signs), a ["%{"] is followed by a second ["%{"] before the first
    closing brace.  The compiler emits the escaped percent ["%%"] for the
    dangling percent sign, copies its opening brace and the text [mid] up to
    the second ["%{"] into the positional template as they are, and compiles
    the template from the second ["%{"] on as it would on its own, starting
    from the time layout that the parts before have set. *)
Theorem parseFormat_premature_placeholder :
  forall (st : State) (items : list item) (mid rest : string),
    well_formed_before ("%{" ++ mid ++ "%{" ++ rest) items ->
    Index mid "%{" = -1 ->
    IndexRune mid "}" = -1 ->
    IndexRune rest "}" <> -1 ->
    10 <= len (template items ++ "%{" ++ mid ++ "%{" ++ rest) ->
    parseFormat st (template items ++ "%{" ++ mid ++ "%{" ++ rest) =
    result_with_prefix (compiled items ++ "%%{" ++ mid)
      (parse_scan_with (time_layout items (defTimeFmt st)) ("%{" ++ rest)).
Proof.
  intros st items mid rest Hwf Hopen Hclose Hrest Hlen.
  unfold parseFormat.
  replace (len _ <? 10) with false by (symmetry; apply Z.ltb_ge; exact Hlen).
  change (parse_scan st (template items ++ "%{" ++ mid ++ "%{" ++ rest))
    with (parse_scan_with (defTimeFmt st)
            (template items ++ "%{" ++ mid ++ "%{" ++ rest)).
  now apply parse_scan_with_premature.
Qed.

End DanglingPlaceholder.

Lemma parseFormat_premature_placeholder_witness :
  parseFormat initial_state
    (template [Ph "time:2006"; Lit " "; Pct; Lit "x "] ++ "%{" ++ "in%v " ++ "%{" ++ "message}")
  = result_with_prefix (compiled [Ph "time:2006"; Lit " "; Pct; Lit "x "] ++ "%%{" ++ "in%v ")
      (parse_scan_with
         (time_layout [Ph "time:2006"; Lit " "; Pct; Lit "x "] (defTimeFmt initial_state))
         ("%{" ++ "message}")).
Proof.
  apply (parseFormat_premature_placeholder initial_state
           [Ph "time:2006"; Lit " "; Pct; Lit "x "] "in%v " "message}").
  - cbn. repeat split; try reflexivity; lia.
  - reflexivity.
  - reflexivity.
  - vm_compute. discriminate.
  - vm_compute. discriminate.
Defined.

(** ** Rendering what was compiled *)

Section RenderWellFormed.

Variable E : Env.

Lemma map_lookup_cases (k : string) (m : list (string * string)) :
  map_lookup k m = EmptyString \/ In (map_lookup k m) (map snd m).
Proof.
  induction m as [|[k' v] m IH]; [now left|].
  cbn [map_lookup map snd In]. destruct (String.eqb k' k); tauto.
Qed.

Lemma phfs_cases (k : string) : phfs k = EmptyString \/ In (phfs k) table_verbs.
Proof.
  destruct (map_lookup_cases k phfs_table) as [H|H]; [now left | right].
  unfold phfs. revert H. generalize (map_lookup k phfs_table). intros v.
  unfold phfs_table, table_verbs. cbn [map snd In]. tauto.
Qed.

Lemma ph2verb_cases (ph : string) :
  fst (ph2verb ph) = EmptyString \/ In (fst (ph2verb ph)) table_verbs.
Proof.
  unfold ph2verb.
  destruct (len ph <? 4); [now left|].
  destruct (negb (Ascii.eqb (byte_at ph 0) "%")
            || negb (Ascii.eqb (byte_at ph 1) "{")
            || negb (Ascii.eqb (byte_at ph (len ph - 1)) "}")); [now left|].
  destruct (IndexRune ph ":" =? -1); cbn [fst]; apply phfs_cases.
Qed.

Lemma len_three (c1 c2 c3 : ascii) (s : string) :
  (len (String c1 (String c2 (String c3 s))) <? 3) = false.
Proof. apply Z.ltb_ge. unfold len. cbn [String.length]. lia. Qed.

Lemma parseArgNumber_digit (d : ascii) (rest : string) :
  Ascii.eqb d "]" = false ->
  Fmt.parseArgNumber (String "[" (String d (String "]" rest)))
  = let '(width, ok, r) := Fmt.parsenum (String d EmptyString) in
    if negb ok || negb (String.eqb r EmptyString) then (0, 3, false)
    else (width - 1, 3, true).
Proof.
  intros Hd. unfold Fmt.parseArgNumber. rewrite len_three.
  cbn [drop index_byte]. rewrite Hd, Ascii.eqb_refl. reflexivity.
Qed.

Lemma argNumber_skip (n : Z) (a : Z) (s : string) (ai re g : bool) :
  Fmt.starts_with "[" s = false ->
  Fmt.argNumber n (Fmt.mkScan a s ai re g) = Fmt.mkScan a s false re g.
Proof. intros H. unfold Fmt.argNumber. cbn [Fmt.sc_rest]. now rewrite H. Qed.

Lemma argNumber_index (d : ascii) (a : Z) (rest : string) (ai re g : bool) :
  In d ["1"; "2"; "3"; "4"; "5"; "6"; "7"; "8"]%char ->
  Fmt.argNumber 8 (Fmt.mkScan a (String "[" (String d (String "]" rest))) ai re g)
  = Fmt.mkScan (Z.of_nat (nat_of_ascii d) - 49) rest true true g.
Proof.
  cbn [In]. unfold Fmt.argNumber. cbn [Fmt.sc_rest Fmt.starts_with].
  change (Ascii.eqb "[" "[") with true. cbv iota.
  intros [<-|[<-|[<-|[<-|[<-|[<-|[<-|[<-|[]]]]]]]]];
    rewrite parseArgNumber_digit by reflexivity; reflexivity.
Qed.

Lemma parsenum_none (c : ascii) (rest : string) :
  Fmt.is_digit c = false -> Fmt.parsenum (String c rest) = (0, false, String c rest).
Proof. intros H. unfold Fmt.parsenum. cbn [Fmt.parsenum_loop]. now rewrite H. Qed.

Lemma parsenum_one (d c : ascii) (rest : string) :
  Fmt.is_digit d = true -> Fmt.is_digit c = false ->
  Fmt.parsenum (String d (String c rest))
  = (Z.of_nat (nat_of_ascii d) - 48, true, String c rest).
Proof.
  intros Hd Hc. unfold Fmt.parsenum. cbn [Fmt.parsenum_loop]. rewrite Hd, Hc.
  reflexivity.
Qed.

Ltac scan_fields :=
  cbv zeta beta iota;
  cbn [Fmt.sc_rest Fmt.sc_argNum Fmt.sc_afterIndex Fmt.sc_reordered Fmt.sc_good
       andb negb orb drop].

Ltac head_tests :=
  repeat match goal with
         | |- context [Fmt.starts_with ?c (String ?a ?s)] =>
             let v := eval vm_compute in (Ascii.eqb a c) in
             change (Fmt.starts_with c (String a s)) with v
         end.

Ltac enter_slow c :=
  cbn [drop append]; unfold Fmt.directive;
  change (Fmt.is_flag c) with false; cbv iota;
  change (Fmt.in_range 97 122 c) with false; cbn [andb]; cbv iota;
  unfold Fmt.directive_slow;
  change (Z.of_nat (List.length (Info.operands _ _))) with 8.

Ltac index_verb :=
  enter_slow "["%char; rewrite argNumber_index by (cbn [In]; tauto); reflexivity.

Ltac precision_verb :=
  enter_slow "."%char; rewrite argNumber_skip by reflexivity;
  scan_fields; head_tests; scan_fields;
  rewrite parsenum_none by reflexivity; scan_fields; head_tests; scan_fields;
  rewrite argNumber_skip by reflexivity; scan_fields; head_tests; scan_fields;
  rewrite parsenum_one by reflexivity; scan_fields;
  rewrite argNumber_index by (cbn [In]; tauto);
  reflexivity.

(** Each verb of the table prints its field and leaves [argNum] behind the
    operand it names. *)
Lemma directive_table_verb (v : string) :
  In v table_verbs ->
  forall (r : Info.t) (lvl rest : string) (argNum : Z),
    Fmt.directive (Info.operands r lvl) (drop 1 v ++ rest) argNum
    = Fmt.DirOut (verb_field r lvl v) (verb_next v) true rest.
Proof.
  unfold table_verbs. cbn [In].
  intros [<-|[<-|[<-|[<-|[<-|[<-|[<-|[<-|[<-|[]]]]]]]]]]; intros;
    first [index_verb | precision_verb].
Qed.

Lemma directive_percent (r : Info.t) (lvl rest : string) (argNum : Z) :
  Fmt.directive (Info.operands r lvl) (String "%" rest) argNum
  = Fmt.DirOut "%" argNum false rest.
Proof. enter_slow "%"%char. reflexivity. Qed.

Lemma table_verb_head (v : string) :
  In v table_verbs -> exists v', v = String "%" v' /\ drop 1 v = v'.
Proof.
  unfold table_verbs. cbn [In].
  intros [<-|[<-|[<-|[<-|[<-|[<-|[<-|[<-|[<-|[]]]]]]]]]]; eexists; split; reflexivity.
Qed.

Lemma doPrintf_table_verb (fuel : nat) (v C : string) (r : Info.t) (lvl : string)
    (argNum : Z) (re : bool) :
  In v table_verbs ->
  Fmt.doPrintf (fmt_other E) (S fuel) (Info.operands r lvl) (v ++ C) argNum re
  = verb_field r lvl v
    ++ Fmt.doPrintf (fmt_other E) fuel (Info.operands r lvl) C (verb_next v) true.
Proof.
  intros Hv. destruct (table_verb_head v Hv) as (v' & Hv' & Hd).
  pose proof (directive_table_verb v Hv r lvl C argNum) as Hdir.
  rewrite Hd in Hdir. rewrite Hv'. cbn [append Fmt.doPrintf index_byte].
  change (Ascii.eqb "%" "%") with true. cbv iota. cbn [take drop append].
  rewrite Hdir, <- Hv'. now rewrite orb_true_r.
Qed.

Lemma doPrintf_escaped_percent (fuel : nat) (C : string) (r : Info.t) (lvl : string)
    (argNum : Z) (re : bool) :
  Fmt.doPrintf (fmt_other E) (S fuel) (Info.operands r lvl) ("%%" ++ C) argNum re
  = "%" ++ Fmt.doPrintf (fmt_other E) fuel (Info.operands r lvl) C argNum re.
Proof.
  cbn [append Fmt.doPrintf index_byte].
  change (Ascii.eqb "%" "%") with true. cbv iota. cbn [take drop append].
  rewrite directive_percent. now rewrite orb_false_r.
Qed.

Lemma doPrintf_literal (fuel : nat) (s C : string) (a : list Fmt.value)
    (argNum : Z) (re : bool) :
  index_byte "%" s = None ->
  Fmt.doPrintf (fmt_other E) (S fuel) a (s ++ C) argNum re
  = s ++ Fmt.doPrintf (fmt_other E) (S fuel) a C argNum re.
Proof.
  intros Hs. cbn [Fmt.doPrintf]. rewrite (index_byte_app_None _ _ _ Hs).
  destruct (index_byte "%" C) as [i|]; cbn [option_map].
  - rewrite take_app_plus.
    replace (S (String.length s + i)) with (String.length s + S i)%nat by lia.
    rewrite !drop_app_plus.
    destruct (Fmt.directive a (drop (S i) C) argNum); now rewrite !append_assoc.
  - now rewrite append_assoc.
Qed.

(** The formatter on the compiled parts: the rendered parts, then the
    check for unused operands. *)
Lemma doPrintf_compiled (r : Info.t) (lvl : string) (items : list item) :
  forall (fuel : nat) (argNum : Z) (re : bool),
    well_formed items ->
    (String.length (compiled items) < fuel)%nat ->
    Fmt.doPrintf (fmt_other E) fuel (Info.operands r lvl) (compiled items) argNum re
    = rendered r lvl items
      ++ Fmt.extra (Info.operands r lvl) (next_operand items argNum)
                   (re || uses_field items).
Proof.
  induction items as [|i items IH]; intros fuel argNum re Hwf Hfuel.
  - destruct fuel as [|fuel]; [cbn [compiled String.length] in Hfuel; lia|].
    cbn [compiled rendered next_operand uses_field Fmt.doPrintf index_byte append].
    now rewrite orb_false_r.
  - destruct i as [s|body|];
      cbn [compiled item_verb rendered item_render next_operand uses_field well_formed]
        in *.
    + destruct Hwf as [Hs Hwf]. rewrite length_append in Hfuel.
      destruct fuel as [|fuel]; [lia|].
      rewrite (doPrintf_literal _ _ _ _ _ _ Hs), IH by (auto; lia).
      now rewrite append_assoc.
    + destruct Hwf as (_ & _ & Hwf).
      destruct (ph2verb_cases (placeholder body)) as [Hv|Hv].
      * rewrite Hv in *. cbn [append] in *. rewrite IH by auto.
        change (verb_field r lvl EmptyString) with EmptyString.
        change (String.eqb EmptyString EmptyString) with true.
        cbn [append negb orb]. reflexivity.
      * destruct (table_verb_head _ Hv) as (v' & Hv' & _).
        rewrite length_append in Hfuel.
        assert (Hpos : (0 < String.length (fst (ph2verb (placeholder body))))%nat)
          by (rewrite Hv'; cbn [String.length]; lia).
        destruct fuel as [|fuel]; [lia|].
        rewrite (doPrintf_table_verb _ _ _ _ _ _ _ Hv), IH by (auto; lia).
        replace (String.eqb (fst (ph2verb (placeholder body))) EmptyString) with false
          by (rewrite Hv'; reflexivity).
        cbn [negb orb]. rewrite orb_true_r. now rewrite append_assoc.
    + destruct Hwf as (_ & _ & Hwf). cbn [String.length append] in Hfuel.
      destruct fuel as [|fuel]; [lia|].
      rewrite doPrintf_escaped_percent, IH by (auto; cbn [String.length] in Hfuel; lia).
      reflexivity.
Qed.

(** X2: for a template of ten bytes or more made of literal text without
    percent signs, placeholders [%{body}] whose body has neither a percent
    sign nor a closing brace, and single percent signs that are each
    followed by at least two more bytes of the template, the first of them
    not an opening brace ([well_formed]), and that names at least one field
    of the table: compiling it and rendering a record of a defined severity
    through the result gives the literals as they are, one percent sign for
    each single one and the field values at the places of their
    placeholders, with nothing added, provided that line does not contain
    the marker. *)
Theorem compile_then_render :
  forall (st : State) (r : Info.t) (lvl : string) (items : list item),
    well_formed items ->
    10 <= len (template items) ->
    Info.logLevelString r = Returns lvl ->
    uses_field items = true ->
    contains (rendered r lvl items) Info.marker = false ->
    exists fmt t,
      parseFormat st (template items) = Some (fmt, t) /\
      Info.Output E r fmt = Returns (rendered r lvl items).
Proof.
  intros st r lvl items Hwf Hlen Hlvl Huses Hclean.
  exists (compiled items), (time_layout items (defTimeFmt st)).
  split; [now rewrite parseFormat_long, parse_scan_well_formed|].
  unfold Info.Output. rewrite Hlvl. unfold Fmt.Sprintf.
  rewrite doPrintf_compiled by (auto; lia).
  rewrite Huses, orb_true_r. unfold Fmt.extra. cbn [negb andb].
  rewrite append_empty_r. unfold LastIndex.
  apply contains_false in Hclean.
  rewrite (proj2 (last_index_of_None _ _) Hclean). reflexivity.
Qed.

End RenderWellFormed.

(** ** When the compiler returns *)

Section CompilerTermination.

Lemma drop_drop (n m : nat) (s : string) : drop n (drop m s) = drop (m + n) s.
Proof.
  revert s; induction m as [|m IH]; intros s; [reflexivity|].
  destruct s as [|c s]; [now destruct n | apply IH].
Qed.

Lemma index_byte_drop_None (c : ascii) (s : string) (k : nat) :
  index_byte c s = None -> index_byte c (drop k s) = None.
Proof.
  revert s; induction k as [|k IH]; intros s H; [exact H|].
  destruct s as [|a s]; [exact H|].
  cbn [index_byte] in H. cbn [drop]. apply IH.
  destruct (Ascii.eqb a c); [discriminate H|].
  now destruct (index_byte c s).
Qed.

Lemma suffix_of_trans (f F G : string) :
  suffix_of f F -> suffix_of F G -> suffix_of f G.
Proof. intros [k ->] [j ->]. exists (k + j)%nat. apply drop_drop. Qed.

Lemma slice_from_suffix (F : string) (i : Z) : suffix_of F (slice_from F i).
Proof. now exists (Z.to_nat i). Qed.

(** The body only takes bytes off the front of [format]. *)
Lemma parse_body_suffix (m F t : string) : suffix_of F (p_format (parse_body m F t)).
Proof.
  unfold parse_body.
  destruct (2 <? len F); [|now exists O].
  destruct (Ascii.eqb (byte_at F 1) "{"); [|apply slice_from_suffix].
  destruct (negb (IndexRune F "}" =? -1)); [|apply slice_from_suffix].
  destruct (negb (Index (slice_from F 1) "%{" =? -1)
            && (Index (slice_from F 1) "%{" <? IndexRune F "}"));
    [apply slice_from_suffix|].
  destruct (ph2verb (slice_to F (IndexRune F "}" + 1))). apply slice_from_suffix.
Qed.

(** With no percent sign among the last two bytes of the template, a
    percent sign the loop stops at has more than two bytes from it on. *)
Lemma percent_not_at_end (f F r : string) :
  index_byte "%" (drop (String.length f - 2) f) = None ->
  suffix_of f F -> F = String "%" r -> 2 < len F.
Proof.
  intros Hend [k Hk] HF.
  destruct (Z.le_gt_cases (len F) 2) as [Hle|Hgt]; [exfalso | lia].
  assert (Hlen : (String.length f - k <= 2)%nat).
  { unfold len in Hle. rewrite Hk, length_drop in Hle. lia. }
  assert (Hnone : index_byte "%" F = None).
  { rewrite Hk.
    replace k with (String.length f - 2 + (k - (String.length f - 2)))%nat by lia.
    rewrite <- drop_drop. now apply index_byte_drop_None. }
  rewrite HF in Hnone. cbn [index_byte] in Hnone.
  change (Ascii.eqb "%" "%") with true in Hnone. discriminate Hnone.
Qed.

Lemma parse_loop_returns (f : string) :
  index_byte "%" (drop (String.length f - 2) f) = None ->
  forall (n : nat) (s : pstate),
    at_percent s -> suffix_of f (p_format s) -> (remaining s <= n)%nat ->
    exists res, parse_loop n s = Some res.
Proof.
  intros Hend. induction n as [|n IH]; intros s Hat Hsuf Hrem.
  - destruct (p_idx s =? -1) eqn:He.
    + eexists. cbn [parse_loop]. now rewrite He.
    + exfalso. destruct Hat as [Hat|(H0 & r & Hr)]; [apply Z.eqb_neq in He; lia|].
      rewrite (remaining_at_percent s r H0 Hr), Hr in Hrem. cbn [String.length] in Hrem. lia.
  - destruct (p_idx s =? -1) eqn:He.
    + eexists. cbn [parse_loop]. now rewrite He.
    + destruct Hat as [Hat|(H0 & r & Hr)]; [apply Z.eqb_neq in He; lia|].
      apply Z.eqb_neq in He. rewrite parse_loop_S by exact He.
      unfold parse_iter.
      assert (Hsuf' : suffix_of f (slice_from (p_format s) (p_idx s)))
        by (eapply suffix_of_trans; [exact Hsuf | apply slice_from_suffix]).
      pose proof (percent_not_at_end _ _ _ Hend Hsuf' Hr) as Hlong.
      destruct (parse_body_spec (p_msgfmt s ++ slice_to (p_format s) (p_idx s))
                  (slice_from (p_format s) (p_idx s)) (p_timefmt s) r Hr)
        as (Hg & Hp & _).
      specialize (Hp Hlong).
      rewrite (remaining_at_percent s r H0 Hr) in Hrem.
      apply IH; [exact Hg | | lia].
      eapply suffix_of_trans; [exact Hsuf' | apply parse_body_suffix].
Qed.

(** X3: [parseFormat] returns for every template that has no percent sign
    among its last two bytes; [SetFormat] and [SetDefaultFormat] then
    return too. *)
Theorem parseFormat_returns :
  forall (st : State) (w : Worker.t) (format : string),
    index_byte "%" (drop (String.length format - 2) format) = None ->
    exists msgfmt timefmt,
      parseFormat st format = Some (msgfmt, timefmt) /\
      Worker.SetFormat w st format
        = Returns (Worker.mk (Worker.Minion w) (Worker.Color w) msgfmt timefmt
                             (Worker.level w) (Worker.lock w)) /\
      SetDefaultFormat st format
        = Returns (mkState msgfmt timefmt (logNo st) (mutex_next st) (mutex_held st)).
Proof.
  intros st w format Hend.
  assert (H : exists res, parseFormat st format = Some res).
  { unfold parseFormat. destruct (len format <? 10); [eexists; reflexivity|].
    unfold parse_scan. apply (parse_loop_returns format Hend).
    - apply IndexRune_at_percent.
    - now exists O.
    - apply remaining_le. }
  destruct H as [[msgfmt timefmt] H]. exists msgfmt, timefmt.
  unfold Worker.SetFormat, SetDefaultFormat. rewrite H. repeat split.
Qed.

Lemma drop_app_le (k : nat) (p q : string) :
  (k <= String.length p)%nat -> drop k (p ++ q) = drop k p ++ q.
Proof.
  revert p; induction k as [|k IH]; intros p H; [reflexivity|].
  destruct p as [|c p]; [cbn [String.length] in H; lia|].
  cbn [append drop]. apply IH. cbn [String.length] in H. lia.
Qed.

Lemma ends_with_percent_drop (F : string) (k : nat) :
  ends_with_percent F -> (k < String.length F)%nat -> ends_with_percent (drop k F).
Proof.
  intros [p ->] Hk. rewrite length_append in Hk. cbn [String.length] in Hk.
  exists (drop k p). apply drop_app_le. lia.
Qed.

Lemma ends_with_percent_found (F : string) :
  ends_with_percent F -> IndexRune F "%" <> -1.
Proof.
  intros [p ->]. unfold IndexRune.
  assert (H : exists i, index_byte "%" (p ++ "%") = Some i).
  { induction p as [|c p [i IH]]; [now exists O|].
    cbn [append index_byte]. destruct (Ascii.eqb c "%"); [now exists O|].
    rewrite IH. now exists (S i). }
  destruct H as [i ->]. cbn [to_int]. lia.
Qed.

(** A byte other than a percent sign is not the last one of a text that
    ends with a percent sign. *)
Lemma ends_with_percent_not_last (F r : string) (c : ascii) (j : nat) :
  ends_with_percent F -> drop j F = String c r -> Ascii.eqb c "%" = false ->
  (S j < String.length F)%nat.
Proof.
  intros HF Hd Hc.
  assert (Hj : (j < String.length F)%nat).
  { pose proof (length_drop j F) as L. rewrite Hd in L. cbn [String.length] in L. lia. }
  destruct (ends_with_percent_drop F j HF Hj) as [p Hp].
  rewrite Hd in Hp. destruct p as [|c' p].
  - cbn [append] in Hp. injection Hp as -> _. discriminate Hc.
  - cbn [append] in Hp. injection Hp as _ ->.
    pose proof (length_drop j F) as L. rewrite Hd in L.
    cbn [String.length] in L. rewrite length_append in L. cbn [String.length] in L. lia.
Qed.

(** In a text that ends with a percent sign the body stops at a percent
    sign again, and what is left still ends with one. *)
Lemma parse_body_ends_with_percent (m F t r : string) :
  F = String "%" r -> ends_with_percent F -> 2 < len F ->
  ends_with_percent (p_format (parse_body m F t)) /\ p_idx (parse_body m F t) <> -1.
Proof.
  intros HF Hend Hlong. unfold parse_body.
  replace (2 <? len F) with true by (symmetry; apply Z.ltb_lt; exact Hlong).
  assert (H1 : ends_with_percent (slice_from F 1)).
  { apply ends_with_percent_drop; [exact Hend|]. unfold len in Hlong. lia. }
  destruct (Ascii.eqb (byte_at F 1) "{").
  - destruct (negb (IndexRune F "}" =? -1)) eqn:Hj.
    + destruct (negb (Index (slice_from F 1) "%{" =? -1)
                && (Index (slice_from F 1) "%{" <? IndexRune F "}")) eqn:Hc.
      * cbn [p_format p_idx]. split; [exact H1|].
        apply andb_true_iff in Hc. destruct Hc as [Hc _].
        now apply negb_true_iff, Z.eqb_neq in Hc.
      * destruct (ph2verb (slice_to F (IndexRune F "}" + 1))). cbn [p_format p_idx].
        assert (He : ends_with_percent (slice_from F (IndexRune F "}" + 1))).
        { unfold IndexRune in *. destruct (index_byte "}" F) as [j|] eqn:Hi;
            [|discriminate Hj].
          destruct (index_byte_Some _ _ _ Hi) as (r' & Hr' & _).
          cbn [to_int]. unfold slice_from.
          replace (Z.to_nat (Z.of_nat j + 1)) with (S j) by lia.
          apply ends_with_percent_drop; [exact Hend|].
          now apply (ends_with_percent_not_last F r' "}" j). }
        split; [exact He | now apply ends_with_percent_found].
    + cbn [p_format p_idx]. split; [exact H1 | now apply ends_with_percent_found].
  - cbn [p_format p_idx]. split; [exact H1 | now apply ends_with_percent_found].
Qed.

Lemma parse_loop_never_ends (n : nat) :
  forall s, at_percent s -> p_idx s <> -1 -> ends_with_percent (p_format s) ->
            parse_loop n s = None.
Proof.
  induction n as [|n IH]; intros s Hat Hidx Hend.
  - cbn [parse_loop]. apply Z.eqb_neq in Hidx. now rewrite Hidx.
  - rewrite parse_loop_S by exact Hidx.
    destruct Hat as [Hat|(H0 & r & Hr)]; [contradiction|].
    assert (HF : ends_with_percent (slice_from (p_format s) (p_idx s))).
    { apply ends_with_percent_drop; [exact Hend|].
      pose proof (length_slice_from (p_format s) (p_idx s)) as L.
      rewrite Hr in L. cbn [String.length] in L. lia. }
    unfold parse_iter.
    destruct (parse_body_spec (p_msgfmt s ++ slice_to (p_format s) (p_idx s))
                (slice_from (p_format s) (p_idx s)) (p_timefmt s) r Hr)
      as (Hg & _ & Hst).
    destruct (Z.le_gt_cases (len (slice_from (p_format s) (p_idx s))) 2) as [Hle|Hgt].
    + rewrite (Hst Hle). now apply (parse_loop_stuck n _ r).
    + destruct (parse_body_ends_with_percent
                  (p_msgfmt s ++ slice_to (p_format s) (p_idx s))
                  _ (p_timefmt s) r Hr HF ltac:(lia)) as [He Hi].
      now apply IH.
Qed.

(** X4: for a template of ten bytes or more whose last byte is a percent
    sign, the loop of [parseFormat] never ends, whatever the number of
    rounds: [parseFormat], [SetFormat] and [SetDefaultFormat] do not
    return. *)
Theorem parseFormat_trailing_percent_hangs :
  forall (st : State) (w : Worker.t) (p : string),
    10 <= len (p ++ "%") ->
    (forall n, parse_loop n (mkP (p ++ "%") (IndexRune (p ++ "%") "%") EmptyString
                                 (defTimeFmt st)) = None) /\
    parseFormat st (p ++ "%") = None /\
    Worker.SetFormat w st (p ++ "%") = Hangs /\
    SetDefaultFormat st (p ++ "%") = Hangs.
Proof.
  intros st w p Hlen.
  assert (Hloop : forall n, parse_loop n (mkP (p ++ "%") (IndexRune (p ++ "%") "%")
                                             EmptyString (defTimeFmt st)) = None).
  { intros n. apply parse_loop_never_ends.
    - apply IndexRune_at_percent.
    - cbn [p_idx]. apply ends_with_percent_found. now exists p.
    - cbn [p_format]. now exists p. }
  assert (Hp : parseFormat st (p ++ "%") = None).
  { unfold parseFormat.
    replace (len (p ++ "%") <? 10) with false by (symmetry; apply Z.ltb_ge; lia).
    apply Hloop. }
  unfold Worker.SetFormat, SetDefaultFormat. rewrite Hp. repeat split. exact Hloop.
Qed.

End CompilerTermination.

(** ** [ph2verb] *)

Section PlaceholderFacts.

Lemma get_app_length (a : string) (c : ascii) (b : string) :
  String.get (String.length a) (a ++ String c b) = Some c.
Proof. induction a as [|x a IH]; [reflexivity | exact IH]. Qed.

Lemma byte_at_last (a : string) (c : ascii) :
  byte_at (a ++ String c EmptyString) (len (a ++ String c EmptyString) - 1) = c.
Proof.
  unfold byte_at, len. rewrite length_append. cbn [String.length].
  replace (Z.to_nat (Z.of_nat (String.length a + 1) - 1)) with (String.length a) by lia.
  now rewrite get_app_length.
Qed.

Lemma placeholder_shape (body : string) :
  placeholder body = String "%" (String "{" body) ++ "}".
Proof. unfold placeholder. cbn [append]. reflexivity. Qed.

(** The three tests of [ph2verb] pass on [%{body}] with a non-empty
    body. *)
Lemma ph2verb_guards (body : string) :
  body <> EmptyString ->
  (len (placeholder body) <? 4) = false /\
  negb (Ascii.eqb (byte_at (placeholder body) 0) "%")
  || negb (Ascii.eqb (byte_at (placeholder body) 1) "{")
  || negb (Ascii.eqb (byte_at (placeholder body) (len (placeholder body) - 1)) "}")
  = false.
Proof.
  intros Hb. split.
  - apply Z.ltb_ge. unfold len, placeholder. cbn [append String.length].
    rewrite length_append. destruct body; [congruence|]. cbn [String.length]. lia.
  - rewrite placeholder_shape at 3 4. rewrite byte_at_last.
    unfold placeholder. cbn [append].
    change (byte_at (String "%" (String "{" (body ++ "}"))) 0) with "%"%char.
    change (byte_at (String "%" (String "{" (body ++ "}"))) 1) with "{"%char.
    reflexivity.
Qed.

(** X5: [ph2verb] splits a placeholder at its first colon: the name before
    it selects the verb, and all that follows up to the closing brace,
    further colons included, is the argument; without a colon the argument
    is empty. *)
Theorem ph2verb_splits_at_first_colon :
  forall (name arg : string),
    index_byte ":" name = None ->
    ph2verb (placeholder name) = (phfs (placeholder name), EmptyString) /\
    ph2verb (placeholder (name ++ ":" ++ arg)) = (phfs (placeholder name), arg).
Proof.
  intros name arg Hname. split.
  - destruct name as [|c name]; [reflexivity|].
    destruct (ph2verb_guards (String c name) ltac:(discriminate)) as [H4 Hg].
    unfold ph2verb. rewrite H4, Hg.
    assert (Hi : IndexRune (placeholder (String c name)) ":" = -1).
    { unfold IndexRune, placeholder. cbn [append index_byte].
      change (Ascii.eqb "%" ":") with false. change (Ascii.eqb "{" ":") with false.
      cbv iota. cbn [index_byte] in Hname.
      destruct (Ascii.eqb c ":"); [discriminate Hname|].
      destruct (index_byte ":" name) eqn:Hn; [discriminate Hname|].
      rewrite (index_byte_app_None _ _ _ Hn). reflexivity. }
    rewrite Hi. reflexivity.
  - assert (Hne : name ++ ":" ++ arg <> EmptyString)
      by (destruct name; discriminate).
    destruct (ph2verb_guards _ Hne) as [H4 Hg].
    unfold ph2verb. rewrite H4, Hg.
    assert (Hshape : placeholder (name ++ ":" ++ arg)
                     = String "%" (String "{" name) ++ String ":" (arg ++ "}")).
    { unfold placeholder. cbn [append]. now rewrite !append_assoc. }
    assert (Hi : IndexRune (placeholder (name ++ ":" ++ arg)) ":"
                 = Z.of_nat (String.length (String "%" (String "{" name)))).
    { rewrite Hshape. unfold IndexRune. rewrite index_byte_app_None.
      - cbn [index_byte]. change (Ascii.eqb ":" ":") with true. cbv iota.
        cbn [option_map to_int]. f_equal. lia.
      - cbn [index_byte]. change (Ascii.eqb "%" ":") with false.
        change (Ascii.eqb "{" ":") with false. cbv iota. now rewrite Hname. }
    rewrite Hi.
    replace (Z.of_nat (String.length (String "%" (String "{" name))) =? -1) with false
      by (symmetry; apply Z.eqb_neq; lia).
    f_equal.
    + f_equal. unfold slice_to. rewrite Nat2Z.id, Hshape, take_app. reflexivity.
    + unfold slice, len. rewrite Hshape, length_append.
      replace (Z.to_nat (Z.of_nat (String.length (String "%" (String "{" name))) + 1))
        with (String.length (String "%" (String "{" name)) + 1)%nat by lia.
      rewrite drop_app_plus. cbn [drop String.length]. rewrite length_append.
      cbn [String.length].
      replace (Z.to_nat _) with (String.length arg) by lia.
      apply take_app.
Qed.

End PlaceholderFacts.

(** ** The worker and the facade: what a call leaves behind *)

Section CallEffects.

Variable E : Env.

(** X6: for a record that passes the gate and renders to [output], [Log]
    makes one write to the sink: the header of the [log.Logger], then the
    text (between the colour sequence of the severity and the reset
    sequence when colour is on), then a newline unless the text ends with
    one.  The count it returns is the length of the text with its colour
    sequences, without header and newline; the error is the one of the
    sink; the lock is free again. *)
Theorem Worker_Log_writes_one_line :
  forall (w : Worker.t) (st : State) (S : LogLevel) (calldepth : Z) (info : Info.t)
         (output : string),
    S <= Worker.level w ->
    is_held st (Worker.lock w) = false ->
    Info.Output E info (Worker.format w) = Returns output ->
    let buf := if Worker.Color w =? 0 then output
               else colors S ++ output ++ Worker.reset in
    let header := if lg_flag (Worker.Minion w) =? 0 then lg_prefix (Worker.Minion w)
                  else log_header E (lg_prefix (Worker.Minion w))
                                  (lg_flag (Worker.Minion w)) (calldepth + 1) in
    let line := header ++ buf ++ (if ends_with_newline buf then EmptyString else newline) in
    let sink := lg_out (Worker.Minion w) in
    Worker.Log E w st S calldepth info =
    (Returns (len buf, failing sink (written sink) line),
     Worker.mk (mkLogLogger (mkWriter (written sink ++ [line])%list (failing sink))
                            (lg_prefix (Worker.Minion w)) (lg_flag (Worker.Minion w)))
               (Worker.Color w) (Worker.format w) (Worker.timeFormat w)
               (Worker.level w) (Worker.lock w),
     st).
Proof.
  intros w st S calldepth info output Hgate Hfree Hout. cbv zeta.
  unfold Worker.Log.
  replace (Worker.level w <? S) with false by (symmetry; apply Z.ltb_ge; lia).
  rewrite Hfree. unfold Worker.write_record. rewrite Hout.
  unfold log_Output, Writer_Write. rewrite (Lock_Unlock st _ Hfree).
  destruct (Worker.Color w =? 0); reflexivity.
Qed.

(** X7: a worker as [NewWorker] returns it has level [0], below every
    severity: until [SetLogLevel] is called it drops every record. *)
Theorem NewWorker_drops_everything :
  forall (st st' : State) (prefix : string) (flag color : Z) (out : Writer)
         (lock : MutexPtr) (S : LogLevel) (calldepth : Z) (info : Info.t),
    CriticalLevel <= S ->
    Worker.Log E (NewWorker st prefix flag color out lock) st' S calldepth info
    = (Returns (0, None), NewWorker st prefix flag color out lock, st').
Proof.
  intros st st' prefix flag color out lock S calldepth info HS.
  unfold CriticalLevel in HS. unfold Worker.Log, NewWorker. cbn [Worker.level].
  replace (0 <? S) with true by (symmetry; apply Z.ltb_lt; lia). reflexivity.
Qed.


Lemma Update_loop_last (args : list arg) :
  forall o,
    Update_loop args o =
    if existsb is_refused args then Panics unknown_argument
    else Returns (mkOptions (opt_module o)
                            (or_default (last_of as_int args) (opt_color o))
                            (or_default (last_of as_writer args) (opt_out o))
                            (or_default (last_of as_level args) (opt_level o))).
Proof.
  induction args as [|a args IH]; intros o; [now destruct o|].
  cbn [Update_loop existsb]. rewrite !last_of_cons.
  destruct a; cbn [is_refused orb as_int as_writer as_level];
    try reflexivity; rewrite IH; destruct (existsb is_refused args); try reflexivity;
    cbn [opt_module opt_color opt_out opt_level];
    f_equal; f_equal;
    match goal with
    | |- context [last_of ?sel args] => destruct (last_of sel args); reflexivity
    end.
Qed.

(** X9: [Update] builds a new worker from its arguments alone: the last
    [int], [io.Writer] and [LogLevel] given, or colour [1], standard error
    and Info, with the current default template and time layout; nothing of
    the old worker (its template from [SetFormat], its level, colour and
    sink) is kept.  The module name, the position override and [WriteLock]
    stay.  A string argument, which [New] accepts, makes [Update] panic. *)
Theorem Update_starts_from_defaults :
  forall (l : Logger.t) (st : State) (args : list arg),
    Logger.Update E l st args =
    if existsb is_refused args then Panics unknown_argument
    else
      Returns
        (Logger.mk
           (Logger.Module_ l)
           (Worker.mk
              (mkLogLogger (or_default (last_of as_writer args) (os_Stderr E))
                           EmptyString 0)
              (or_default (last_of as_int args) 1)
              (defFmt st) (defTimeFmt st)
              (or_default (last_of as_level args) InfoLevel)
              (mutex_next st))
           (Logger.posOverride l) (Logger.WriteLock l),
         snd (new_Mutex st)).
Proof.
  intros l st args. unfold Logger.Update. rewrite Update_loop_last.
  destruct (existsb is_refused args); reflexivity.
Qed.

(** X10: two loggers made by [New] one after the other never have the same
    lock: their writes are not serialised against each other, also when
    they share a sink. *)
Theorem New_locks_are_distinct :
  forall (st st1 st2 : State) (args1 args2 : list arg) (l1 l2 : Logger.t)
         (e1 e2 : option error),
    Logger.New E st args1 = Returns (l1, e1, st1) ->
    Logger.New E st1 args2 = Returns (l2, e2, st2) ->
    Logger.WriteLock l1 <> Logger.WriteLock l2 /\
    Worker.lock (Logger.worker l1) <> Worker.lock (Logger.worker l2).
Proof.
  intros st st1 st2 args1 args2 l1 l2 e1 e2 H1 H2.
  destruct (New_shares_lock E _ _ _ _ _ H1) as (Hs1 & Hw1 & Hn1).
  destruct (New_shares_lock E _ _ _ _ _ H2) as (Hs2 & Hw2 & _).
  unfold shares_lock in *. rewrite <- Hs1, <- Hs2, Hw1, Hw2, Hn1. split; lia.
Qed.

(** An admitted record of a defined severity: the error returned is the
    one the sink gave for the line it was handed. *)
Lemma write_record_error (w : Worker.t) (lvl : LogLevel) (calldepth : Z)
    (info : Info.t) :
  valid_level (Info.Level info) ->
  exists n line w',
    Worker.write_record E w lvl calldepth info
    = (Returns (n, failing (lg_out (Worker.Minion w))
                     (written (lg_out (Worker.Minion w))) line), w') /\
    written (lg_out (Worker.Minion w'))
    = (written (lg_out (Worker.Minion w)) ++ [line])%list.
Proof.
  intros Hv. destruct (logLevelString_valid info Hv) as (name & Hn & _).
  unfold Worker.write_record, Info.Output. rewrite Hn.
  match goal with
  | |- context [if ?c then Returns ?a else Returns ?b] =>
      replace (if c then Returns a else Returns b)
        with (Returns (if c then a else b)) by (now destruct c);
      generalize (if c then a else b)
  end.
  intros output. unfold log_Output, Writer_Write.
  cbn [lg_out lg_prefix lg_flag written failing].
  do 3 eexists. split; reflexivity.
Qed.

(** X11: [Write] on a free lock always reports the length of its argument
    as the count, not the count of the worker.  When the level of the worker
    is below Info the record is dropped, the worker is unchanged and the
    error is [nil]; otherwise one line is written to the sink and the error
    is the one the sink returned for that line. *)
Theorem Write_reports_full_length :
  forall (l : Logger.t) (st : State) (bytes : string),
    is_held st (Worker.lock (Logger.worker l)) = false ->
    let sink := lg_out (Worker.Minion (Logger.worker l)) in
    exists l' st',
      (Worker.level (Logger.worker l) < InfoLevel ->
       Logger.Write E l st bytes = (Returns (len bytes, None), l', st') /\
       Logger.worker l' = Logger.worker l) /\
      (InfoLevel <= Worker.level (Logger.worker l) ->
       exists line,
         Logger.Write E l st bytes
         = (Returns (len bytes, failing sink (written sink) line), l', st') /\
         written (lg_out (Worker.Minion (Logger.worker l')))
         = (written sink ++ [line])%list).
Proof.
  intros l st bytes Hfree sink.
  assert (Hv : valid_level InfoLevel) by (unfold valid_level; cbv; split; discriminate).
  unfold Logger.Write, Logger.log_internal, Logger.make_info.
  destruct (Logger.resolve_pos l 4) as [p l0] eqn:Hr.
  assert (Hw : Logger.worker l0 = Logger.worker l).
  { unfold Logger.resolve_pos in Hr.
    destruct (negb (Logger.posOverride l =? -1)); injection Hr as _ <-; reflexivity. }
  destruct (runtime_Caller E p) as [file line]. rewrite Hw.
  set (st1 := mkState _ _ _ _ _). set (info := Info.mk _ _ _ _ _ _ _ _).
  assert (Hfree1 : is_held st1 (Worker.lock (Logger.worker l)) = false) by exact Hfree.
  unfold Worker.Log. destruct (Worker.level (Logger.worker l) <? InfoLevel) eqn:Hgate.
  - apply Z.ltb_lt in Hgate. do 2 eexists. split.
    + intros _. split; reflexivity.
    + intros Hle. lia.
  - apply Z.ltb_ge in Hgate. rewrite Hfree1.
    destruct (write_record_error (Logger.worker l) InfoLevel 2 info Hv)
      as (n & text & w' & Hwr & Hwritten).
    rewrite Hwr. do 2 eexists. split.
    + intros Hlt. lia.
    + intros _. exists text. split; [reflexivity | exact Hwritten].
Qed.

(** X12: [Panic] on a free lock always ends in a panic that carries the
    message, and when the worker admits Critical the record has been
    written to the sink before. *)
Theorem Panic_logs_then_panics :
  forall (l : Logger.t) (st : State) (category message : string),
    is_held st (Worker.lock (Logger.worker l)) = false ->
    exists l' st',
      Logger.Panic E l st category message = (Panics (PanicString message), l', st') /\
      (CriticalLevel <= Worker.level (Logger.worker l) ->
       wrote (Logger.worker l) (Logger.worker l')).
Proof.
  intros l st category message Hfree.
  assert (Hv : valid_level CriticalLevel) by (unfold valid_level; cbv; split; discriminate).
  unfold Logger.Panic, Logger.log_internal, Logger.make_info.
  destruct (Logger.resolve_pos l 2) as [p l0] eqn:Hr.
  assert (Hw : Logger.worker l0 = Logger.worker l).
  { unfold Logger.resolve_pos in Hr.
    destruct (negb (Logger.posOverride l =? -1)); injection Hr as _ <-; reflexivity. }
  destruct (runtime_Caller E p) as [file line]. rewrite Hw.
  set (st1 := mkState _ _ _ _ _). set (info := Info.mk _ _ _ _ _ _ _ _).
  assert (Hfree1 : is_held st1 (Worker.lock (Logger.worker l)) = false) by exact Hfree.
  unfold Worker.Log. destruct (Worker.level (Logger.worker l) <? CriticalLevel) eqn:Hgate.
  - apply Z.ltb_lt in Hgate. do 2 eexists. split; [reflexivity|]. intros Hle. lia.
  - rewrite Hfree1.
    destruct (write_record_writes E (Logger.worker l) CriticalLevel 2 info Hv)
      as (n & err & w' & Hwr & Hwrote).
    rewrite Hwr. do 2 eexists. split; [reflexivity|]. intros _. exact Hwrote.
Qed.

(** X13: a template shorter than ten bytes is not compiled, not even a
    valid one such as [%{lvl}]: [SetFormat] with it puts the worker back on
    the current default template and time layout, and [SetDefaultFormat]
    with it changes nothing. *)
Theorem short_template_is_ignored :
  forall (w : Worker.t) (st : State) (format : string),
    len format < 10 ->
    Worker.SetFormat w st format
      = Returns (Worker.mk (Worker.Minion w) (Worker.Color w) (defFmt st) (defTimeFmt st)
                           (Worker.level w) (Worker.lock w)) /\
    SetDefaultFormat st format = Returns st.
Proof.
  intros w st format H. unfold Worker.SetFormat, SetDefaultFormat, parseFormat.
  replace (len format <? 10) with true by (symmetry; apply Z.ltb_lt; lia).
  split; [reflexivity | now destruct st].
Qed.

(** X14: a template of ten bytes or more without any percent sign compiles
    to itself and, for a record of a defined severity whose texts do not
    contain the marker, renders as itself: the report of the eight unused
    operands is cut off. *)
Theorem literal_template_renders_itself :
  forall (st : State) (r : Info.t) (format : string),
    10 <= len format ->
    index_byte "%" format = None ->
    valid_level (Info.Level r) ->
    contains (Info.Time r) Info.marker = false ->
    contains (Info.Module_ r) Info.marker = false ->
    contains (Info.Filename r) Info.marker = false ->
    contains (Info.Message r) Info.marker = false ->
    contains (Info.Category r) Info.marker = false ->
    parseFormat st format = Some (format, defTimeFmt st) /\
    Info.Output E r format = Returns format.
Proof.
  intros st r format Hlen Hpct Hv Ht Hm Hf Hg Hc. split.
  - pose proof (parse_scan_well_formed st [Lit format]) as H.
    cbn [template item_text compiled item_verb time_layout well_formed] in H.
    rewrite append_empty_r in H. rewrite parseFormat_long by exact Hlen. apply H; auto.
  - now apply Output_no_verbs.
Qed.

End CallEffects.

(** ** The stack dumps *)

Section StackFacts.

Variable E : Env.

Lemma split_byte_single (c : ascii) (a : string) :
  index_byte c a = None -> split_byte c a = [a].
Proof.
  induction a as [|x a IH]; [reflexivity|].
  cbn [index_byte split_byte]. destruct (Ascii.eqb x c); [discriminate|].
  destruct (index_byte c a); [discriminate|]. intros _. now rewrite IH.
Qed.

Lemma split_byte_app (c : ascii) (a r : string) :
  index_byte c a = None -> split_byte c (a ++ String c r) = a :: split_byte c r.
Proof.
  induction a as [|x a IH]; cbn [index_byte append split_byte].
  - now rewrite Ascii.eqb_refl.
  - destruct (Ascii.eqb x c); [discriminate|].
    destruct (index_byte c a); [discriminate|]. intros _. now rewrite IH.
Qed.

(** The pieces of [strings.Split] do not contain the separator, and there
    is at least one. *)
Lemma split_byte_free (c : ascii) (s : string) :
  split_byte c s <> [] /\ Forall (fun p => index_byte c p = None) (split_byte c s).
Proof.
  induction s as [|a s [Hne IH]]; [split; [discriminate | now repeat constructor]|].
  cbn [split_byte]. destruct (Ascii.eqb a c) eqn:Hac.
  - split; [discriminate | now constructor].
  - destruct (split_byte c s) as [|p ps]; [congruence|].
    split; [discriminate|]. inversion IH as [|? ? Hp Hps]; subst.
    constructor; [|exact Hps]. cbn [index_byte]. now rewrite Hac, Hp.
Qed.

(** [strings.Split] undoes [strings.Join] on pieces without the
    separator. *)
Lemma split_byte_Join (c : ascii) (parts : list string) :
  parts <> [] ->
  Forall (fun p => index_byte c p = None) parts ->
  split_byte c (Join parts (String c EmptyString)) = parts.
Proof.
  induction parts as [|p parts IH]; [congruence|]. intros _ Hfree.
  inversion Hfree as [|? ? Hp Hps]; subst.
  destruct parts as [|q parts]; [now apply split_byte_single|].
  change (Join (p :: q :: parts) (String c EmptyString))
    with (p ++ String c (Join (q :: parts) (String c EmptyString))).
  rewrite (split_byte_app _ _ _ Hp), IH; [reflexivity | discriminate | exact Hps].
Qed.

Lemma Forall_skipn {A : Type} (P : A -> Prop) (n : nat) (l : list A) :
  Forall P l -> Forall P (skipn n l).
Proof.
  revert l; induction n as [|n IH]; intros l H; [exact H|].
  destruct l as [|a l]; [exact H|]. inversion H; subst. cbn [skipn]. now apply IH.
Qed.

(** The two cuts of [stack_as] are one cut of four lines after the first. *)
Lemma stack_as_cut :
  forall (lvl : LogLevel) (l : Logger.t) (st : State)
         (category message trace : string),
    let stackParts := split_byte (ascii_of_nat 10) trace in
    Logger.stack_as E lvl l st category message trace =
    if (List.length stackParts <? 5)%nat then None
    else Some (Logger.log_internal E l st lvl category
                 (((if String.eqb message EmptyString then "Stack info" else message)
                   ++ newline)
                  ++ Join (nth O stackParts EmptyString :: skipn 5 stackParts) newline)
                 2).
Proof.
  intros lvl l st category message trace stackParts.
  unfold Logger.stack_as, Stack, strip_frame. fold stackParts.
  destruct (split_byte_free (ascii_of_nat 10) trace) as [Hne Hfree].
  fold stackParts in Hne, Hfree.
  destruct (List.length stackParts <? 3)%nat eqn:H3.
  - apply Nat.ltb_lt in H3.
    replace (List.length stackParts <? 5)%nat with true
      by (symmetry; apply Nat.ltb_lt; lia).
    reflexivity.
  - apply Nat.ltb_ge in H3.
    assert (Hfree' : Forall (fun p => index_byte (ascii_of_nat 10) p = None)
                            (nth O stackParts EmptyString :: skipn 3 stackParts)).
    { constructor; [|now apply Forall_skipn].
      destruct stackParts as [|p ps]; [congruence|]. now inversion Hfree. }
    assert (Hne' : nth O stackParts EmptyString :: skipn 3 stackParts <> [])
      by discriminate.
    unfold newline.
    rewrite (split_byte_Join _ _ Hne' Hfree').
    cbn [List.length]. rewrite List.length_skipn.
    destruct (S (List.length stackParts - 3) <? 3)%nat eqn:H5.
    + apply Nat.ltb_lt in H5.
      replace (List.length stackParts <? 5)%nat with true
        by (symmetry; apply Nat.ltb_lt; lia).
      reflexivity.
    + apply Nat.ltb_ge in H5.
      replace (List.length stackParts <? 5)%nat with false
        by (symmetry; apply Nat.ltb_ge; lia).
      change (skipn 3 (nth O stackParts EmptyString :: skipn 3 stackParts))
        with (skipn 2 (skipn 3 stackParts)).
      rewrite List.skipn_skipn. reflexivity.
Qed.

(** X15: [StackAsError] and [StackAsCritical] cut the stack text twice:
    with the text split into lines, they panic on a slice expression when
    there are fewer than five lines, and otherwise log, at their severity,
    the message (or ["Stack info"] for an empty one), a newline, the first
    line of the text and its lines from the sixth on. *)
Theorem stack_as_drops_two_frames :
  forall (l : Logger.t) (st : State) (category message trace : string),
    let stackParts := split_byte (ascii_of_nat 10) trace in
    let text :=
      ((if String.eqb message EmptyString then "Stack info" else message) ++ newline)
      ++ Join (nth O stackParts EmptyString :: skipn 5 stackParts) newline in
    Logger.StackAsError E l st category message trace =
      (if (List.length stackParts <? 5)%nat then None
       else Some (Logger.log_internal E l st ErrorLevel category text 2)) /\
    Logger.StackAsCritical E l st category message trace =
      (if (List.length stackParts <? 5)%nat then None
       else Some (Logger.log_internal E l st CriticalLevel category text 2)).
Proof.
  intros l st category message trace stackParts text. split.
  - exact (stack_as_cut ErrorLevel l st category message trace).
  - exact (stack_as_cut CriticalLevel l st category message trace).
Qed.

(** On a trace of seven lines: the two frames of the package are gone. *)
Lemma StackAsError_on_demo_trace :
  Logger.StackAsError E demo_logger initial_state "net" EmptyString demo_trace
  = Some (Logger.log_internal E demo_logger initial_state ErrorLevel "net"
            (Join ["Stack info"; "goroutine 1 [running]:"; "main.main()"; "  main.go:10"]
                  newline) 2).
Proof. reflexivity. Qed.

End StackFacts.

(** ** The further theorems at concrete inputs *)

Lemma parseFormat_well_formed_witness :
  parseFormat initial_state
    (template [Lit "at "; Ph "time:15:04"; Pct; Lit " of "; Ph "nope"; Ph "message"])
  = Some (compiled [Lit "at "; Ph "time:15:04"; Pct; Lit " of "; Ph "nope"; Ph "message"],
          time_layout [Lit "at "; Ph "time:15:04"; Pct; Lit " of "; Ph "nope"; Ph "message"]
                      (defTimeFmt initial_state)).
Proof.
  apply (parseFormat_well_formed initial_state
           [Lit "at "; Ph "time:15:04"; Pct; Lit " of "; Ph "nope"; Ph "message"]).
  - cbn [well_formed]. repeat split; try reflexivity. vm_compute. lia.
  - vm_compute. discriminate.
Defined.

Lemma compile_then_render_witness :
  exists fmt t,
    parseFormat initial_state
      (template [Lit "["; Ph "module"; Lit "] "; Ph "lvl"; Lit " 5"; Pct; Lit " "; Ph "message"])
      = Some (fmt, t) /\
    Info.Output demo_env demo_info fmt
      = Returns (rendered demo_info "WARNING"
                   [Lit "["; Ph "module"; Lit "] "; Ph "lvl"; Lit " 5"; Pct; Lit " ";
                    Ph "message"]).
Proof.
  apply (compile_then_render demo_env initial_state demo_info "WARNING"
           [Lit "["; Ph "module"; Lit "] "; Ph "lvl"; Lit " 5"; Pct; Lit " "; Ph "message"]).
  - cbn [well_formed]. repeat split; try reflexivity. vm_compute. lia.
  - vm_compute. discriminate.
  - reflexivity.
  - reflexivity.
  - reflexivity.
Defined.

Lemma parseFormat_returns_witness :
  exists msgfmt timefmt,
    parseFormat initial_state "%{inv %{message} 100% done" = Some (msgfmt, timefmt) /\
    Worker.SetFormat demo_worker initial_state "%{inv %{message} 100% done"
      = Returns (Worker.mk (Worker.Minion demo_worker) (Worker.Color demo_worker)
                           msgfmt timefmt (Worker.level demo_worker)
                           (Worker.lock demo_worker)) /\
    SetDefaultFormat initial_state "%{inv %{message} 100% done"
      = Returns (mkState msgfmt timefmt (logNo initial_state) (mutex_next initial_state)
                         (mutex_held initial_state)).
Proof.
  apply (parseFormat_returns initial_state demo_worker "%{inv %{message} 100% done").
  reflexivity.
Defined.

Lemma parseFormat_trailing_percent_hangs_witness :
  (forall n, parse_loop n (mkP ("progress 100" ++ "%")
                               (IndexRune ("progress 100" ++ "%") "%") EmptyString
                               (defTimeFmt initial_state)) = None) /\
  parseFormat initial_state ("progress 100" ++ "%") = None /\
  Worker.SetFormat demo_worker initial_state ("progress 100" ++ "%") = Hangs /\
  SetDefaultFormat initial_state ("progress 100" ++ "%") = Hangs.
Proof.
  apply (parseFormat_trailing_percent_hangs initial_state demo_worker "progress 100").
  vm_compute. discriminate.
Defined.

Lemma ph2verb_splits_at_first_colon_witness :
  ph2verb (placeholder "time") = (phfs (placeholder "time"), EmptyString) /\
  ph2verb (placeholder ("time" ++ ":" ++ "15:04:05"))
    = (phfs (placeholder "time"), "15:04:05").
Proof.
  apply (ph2verb_splits_at_first_colon "time" "15:04:05"). reflexivity.
Defined.

Lemma Worker_Log_writes_one_line_witness :
  Worker.Log demo_env
    (Worker.mk (mkLogLogger plain_writer EmptyString 0) 1 builtinFmt builtinTimeFmt
               InfoLevel O)
    initial_state ErrorLevel 2 demo_info
  = (Returns (len (colors ErrorLevel
                   ++ "#1 2024-01-01 00:00:00 main.go:42 ▶ WAR hello" ++ Worker.reset),
              None),
     Worker.mk
       (mkLogLogger
          (mkWriter [colors ErrorLevel
                     ++ "#1 2024-01-01 00:00:00 main.go:42 ▶ WAR hello"
                     ++ Worker.reset ++ newline]
                    (failing plain_writer))
          EmptyString 0)
       1 builtinFmt builtinTimeFmt InfoLevel O,
     initial_state).
Proof.
  apply (Worker_Log_writes_one_line demo_env
           (Worker.mk (mkLogLogger plain_writer EmptyString 0) 1 builtinFmt builtinTimeFmt
                      InfoLevel O)
           initial_state ErrorLevel 2 demo_info
           "#1 2024-01-01 00:00:00 main.go:42 ▶ WAR hello").
  - vm_compute. discriminate.
  - reflexivity.
  - vm_compute. reflexivity.
Defined.

Lemma NewWorker_drops_everything_witness :
  Worker.Log demo_env (NewWorker initial_state EmptyString 0 1 plain_writer O)
    initial_state CriticalLevel 2 demo_info
  = (Returns (0, None), NewWorker initial_state EmptyString 0 1 plain_writer O,
     initial_state).
Proof.
  apply (NewWorker_drops_everything demo_env initial_state initial_state EmptyString 0 1
           plain_writer O CriticalLevel 2 demo_info).
  vm_compute. discriminate.
Defined.


Lemma New_locks_are_distinct_witness :
  Logger.WriteLock (Logger.mk "app" demo_worker 0 O)
  <> Logger.WriteLock
       (Logger.mk "db" (Worker.mk (mkLogLogger plain_writer EmptyString 0) 1 builtinFmt
                                  builtinTimeFmt InfoLevel 1%nat) 0 1%nat) /\
  Worker.lock (Logger.worker (Logger.mk "app" demo_worker 0 O))
  <> Worker.lock
       (Logger.worker
          (Logger.mk "db" (Worker.mk (mkLogLogger plain_writer EmptyString 0) 1 builtinFmt
                                     builtinTimeFmt InfoLevel 1%nat) 0 1%nat)).
Proof.
  apply (New_locks_are_distinct demo_env initial_state
           (mkState builtinFmt builtinTimeFmt 0 1%nat [])
           (mkState builtinFmt builtinTimeFmt 0 2%nat [])
           [ArgString "app"; ArgInt 0] [ArgString "db"]
           (Logger.mk "app" demo_worker 0 O)
           (Logger.mk "db" (Worker.mk (mkLogLogger plain_writer EmptyString 0) 1 builtinFmt
                                      builtinTimeFmt InfoLevel 1%nat) 0 1%nat)
           None None).
  - reflexivity.
  - reflexivity.
Defined.

Lemma Write_reports_full_length_witness :
  let l := Logger.mk "app"
             (Worker.mk (mkLogLogger (mkWriter [] (fun _ _ => Some "disk full"))
                                     EmptyString 0) 0
                        builtinFmt builtinTimeFmt InfoLevel O) (-1) O in
  let sink := lg_out (Worker.Minion (Logger.worker l)) in
  exists l' st',
    (Worker.level (Logger.worker l) < InfoLevel ->
     Logger.Write demo_env l initial_state "a line" = (Returns (len "a line", None), l', st') /\
     Logger.worker l' = Logger.worker l) /\
    (InfoLevel <= Worker.level (Logger.worker l) ->
     exists line,
       Logger.Write demo_env l initial_state "a line"
       = (Returns (len "a line", failing sink (written sink) line), l', st') /\
       written (lg_out (Worker.Minion (Logger.worker l')))
       = (written sink ++ [line])%list).
Proof.
  apply (Write_reports_full_length demo_env
           (Logger.mk "app"
              (Worker.mk (mkLogLogger (mkWriter [] (fun _ _ => Some "disk full"))
                                      EmptyString 0) 0
                         builtinFmt builtinTimeFmt InfoLevel O) (-1) O)
           initial_state "a line").
  reflexivity.
Defined.

Lemma Panic_logs_then_panics_witness :
  exists l' st',
    Logger.Panic demo_env demo_logger initial_state "net" "boom"
      = (Panics (PanicString "boom"), l', st') /\
    (CriticalLevel <= Worker.level (Logger.worker demo_logger) ->
     wrote (Logger.worker demo_logger) (Logger.worker l')).
Proof.
  apply (Panic_logs_then_panics demo_env demo_logger initial_state "net" "boom").
  reflexivity.
Defined.

Lemma short_template_is_ignored_witness :
  Worker.SetFormat demo_worker initial_state "%{lvl}"
    = Returns (Worker.mk (Worker.Minion demo_worker) (Worker.Color demo_worker)
                         (defFmt initial_state) (defTimeFmt initial_state)
                         (Worker.level demo_worker) (Worker.lock demo_worker)) /\
  SetDefaultFormat initial_state "%{lvl}" = Returns initial_state.
Proof.
  apply (short_template_is_ignored demo_worker initial_state "%{lvl}").
  vm_compute. reflexivity.
Defined.

Lemma literal_template_renders_itself_witness :
  parseFormat initial_state "heartbeat ok" = Some ("heartbeat ok", defTimeFmt initial_state) /\
  Info.Output demo_env demo_info "heartbeat ok" = Returns "heartbeat ok".
Proof.
  apply (literal_template_renders_itself demo_env initial_state demo_info "heartbeat ok").
  - vm_compute. discriminate.
  - reflexivity.
  - vm_compute. split; discriminate.
  - reflexivity.
  - reflexivity.
  - reflexivity.
  - reflexivity.
  - reflexivity.
Defined.

(** ** The lock after a call, and the defaults a new logger takes *)

Section LockAndDefaults.

Variable E : Env.

(** X16: called with its lock free, [Log] gives the lock back however it
    ends (record dropped, written, or a panic while rendering): the package
    state after the call is the state before it, and the worker keeps its
    template, level, colour and lock; after a panic the worker is as it
    was. *)
Theorem Worker_Log_releases_lock :
  forall (w w' : Worker.t) (st st' : State) (S : LogLevel) (calldepth : Z)
         (info : Info.t) (res : result (Z * option error)),
    is_held st (Worker.lock w) = false ->
    Worker.Log E w st S calldepth info = (res, w', st') ->
    st' = st /\
    Worker.lock w' = Worker.lock w /\ Worker.level w' = Worker.level w /\
    Worker.format w' = Worker.format w /\ Worker.timeFormat w' = Worker.timeFormat w /\
    Worker.Color w' = Worker.Color w /\
    (forall p, res = Panics p -> w' = w).
Proof.
  intros w w' st st' S calldepth info res Hfree H. unfold Worker.Log in H.
  destruct (Worker.level w <? S).
  - injection H as <- <- <-. repeat split.
  - rewrite Hfree in H. unfold Worker.write_record in H.
    rewrite (Lock_Unlock st _ Hfree) in H.
    destruct (Info.Output E info (Worker.format w)) as [output|p|].
    + destruct (log_Output E (Worker.Minion w) (calldepth + 1) _) as [minion err].
      injection H as <- <- <-. repeat split; intros p Hp; discriminate Hp.
    + injection H as <- <- <-. repeat split.
    + injection H as <- <- <-. repeat split.
Qed.

(** X17: once [SetDefaultFormat] has returned, the template and the time
    layout it compiled are what every logger made by [New] afterwards
    starts with. *)
Theorem SetDefaultFormat_is_inherited :
  forall (st st1 st2 : State) (template_ : string) (args : list arg) (l : Logger.t)
         (err : option error),
    SetDefaultFormat st template_ = Returns st1 ->
    Logger.New E st1 args = Returns (l, err, st2) ->
    parseFormat st template_
      = Some (Worker.format (Logger.worker l), Worker.timeFormat (Logger.worker l)) /\
    defFmt st2 = Worker.format (Logger.worker l) /\
    defTimeFmt st2 = Worker.timeFormat (Logger.worker l).
Proof.
  intros st st1 st2 template_ args l err HS HN.
  unfold SetDefaultFormat in HS.
  destruct (parseFormat st template_) as [[msgfmt timefmt]|]; [|discriminate HS].
  injection HS as <-. unfold Logger.New in HN.
  destruct (New_loop args (Logger.defaults E)) as [o| |]; try discriminate HN.
  unfold new_Mutex in HN. injection HN as <- _ <-. repeat split.
Qed.

End LockAndDefaults.

Lemma Worker_Log_releases_lock_witness :
  initial_state = initial_state /\
  Worker.lock demo_worker = Worker.lock demo_worker /\
  Worker.level demo_worker = Worker.level demo_worker /\
  Worker.format demo_worker = Worker.format demo_worker /\
  Worker.timeFormat demo_worker = Worker.timeFormat demo_worker /\
  Worker.Color demo_worker = Worker.Color demo_worker /\
  (forall p, @Panics (Z * option error) (IndexOutOfRange 8) = Panics p ->
             demo_worker = demo_worker).
Proof.
  apply (Worker_Log_releases_lock demo_env demo_worker demo_worker initial_state
           initial_state WarningLevel 2
           (Info.mk 1 "2024-01-01 00:00:00" "core" 9 42 "main.go" "hello" "net")
           (Panics (IndexOutOfRange 8))).
  - reflexivity.
  - reflexivity.
Defined.

Lemma SetDefaultFormat_is_inherited_witness :
  parseFormat initial_state "%{lvl} %{message}"
    = Some (Worker.format (Logger.worker
              (Logger.mk "app" (Worker.mk (mkLogLogger plain_writer EmptyString 0) 0
                                          "%.3[6]s %[7]s" builtinTimeFmt InfoLevel O) 0 O)),
            Worker.timeFormat (Logger.worker
              (Logger.mk "app" (Worker.mk (mkLogLogger plain_writer EmptyString 0) 0
                                          "%.3[6]s %[7]s" builtinTimeFmt InfoLevel O) 0 O))) /\
  defFmt (mkState "%.3[6]s %[7]s" builtinTimeFmt 0 1%nat [])
    = Worker.format (Logger.worker
        (Logger.mk "app" (Worker.mk (mkLogLogger plain_writer EmptyString 0) 0
                                    "%.3[6]s %[7]s" builtinTimeFmt InfoLevel O) 0 O)) /\
  defTimeFmt (mkState "%.3[6]s %[7]s" builtinTimeFmt 0 1%nat [])
    = Worker.timeFormat (Logger.worker
        (Logger.mk "app" (Worker.mk (mkLogLogger plain_writer EmptyString 0) 0
                                    "%.3[6]s %[7]s" builtinTimeFmt InfoLevel O) 0 O)).
Proof.
  apply (SetDefaultFormat_is_inherited demo_env initial_state
           (mkState "%.3[6]s %[7]s" builtinTimeFmt 0 O [])
           (mkState "%.3[6]s %[7]s" builtinTimeFmt 0 1%nat [])
           "%{lvl} %{message}" [ArgString "app"; ArgInt 0]
           (Logger.mk "app" (Worker.mk (mkLogLogger plain_writer EmptyString 0) 0
                                       "%.3[6]s %[7]s" builtinTimeFmt InfoLevel O) 0 O)
           None).
  - reflexivity.
  - reflexivity.
Defined.
